(** * Botkube: binding validation, channel registry, notification routing,
      interactive-command resolution and delivery

    A shallow embedding of the Go sources
    - [pkg/config] validator (src/unnamed/part_000),
    - [pkg/bot] SocketSlack (src/unnamed/part_001),
    - [pkg/events] Event (src/pkg/events/events.go),
    with the properties of the specification proved about it.

    Go strings are byte sequences and are modelled by [string] (a list of
    8-bit characters); Go maps by [gmap]; slices by [list]; a Go [error]
    result by [option error] ([None] is [nil]). *)

From stdpp Require Import gmap strings list fin_maps.

Local Open Scope string_scope.
Local Open Scope list_scope.

(** ** The few functions of Go's [strings] and [fmt] packages the code calls *)
Module gostrings.

(** [strings.HasPrefix(s, prefix)]. *)
Definition HasPrefix (s prefix : string) : bool := String.prefix prefix s.

(** [strings.Join(elems, sep)]. *)
Fixpoint Join (elems : list string) (sep : string) : string :=
  match elems with
  | [] => ""
  | e :: rest =>
      match rest with
      | [] => e
      | _ :: _ => e +:+ sep +:+ Join rest sep
      end
  end.

(** [fmt.Sprintf("%s %s", a, b)]. *)
Definition Sprintf_s_s (a b : string) : string := a +:+ " " +:+ b.

(** The slice expression [s[n:]]: [s] without its first [n] bytes, for
    [n <= len(s)]. *)
Fixpoint dropBytes (n : nat) (s : string) : string :=
  match n, s with
  | 0, _ => s
  | S n', String _ rest => dropBytes n' rest
  | S _, EmptyString => EmptyString
  end.

(** The slice expression [s[len(s)-n:]]: the last [n] bytes of [s], for
    [n <= len(s)]. *)
Definition lastBytes (n : nat) (s : string) : string :=
  dropBytes (String.length s - n) s.

(** The conversion [uint8(n)] of a length. *)
Definition uint8 (n : nat) : nat := n mod 256.

End gostrings.

(** ** Package config: validation of the loaded configuration *)
Module config.
Import gostrings.

Definition nsIncludeTag : string := "ns-include-regex".
Definition invalidBindingTag : string := "invalid_binding".
Definition appTokenPrefix : string := "xapp-".
Definition botTokenPrefix : string := "xoxb-".

(** [var warnsOnlyTags = map[string]struct{}{nsIncludeTag: {}}]: a map used as a set. *)
Definition warnsOnlyTags : gset string := {[ nsIncludeTag ]}.

(** A [*multierror.Error]: [None] is the nil pointer, [Some l] holds the
    messages appended so far. *)
Definition multierror : Type := option (list string).

(** [multierrx.New()]. *)
Definition New : multierror := Some [].

(** [multierrx.Append(err, msg)]; appending to nil allocates. *)
Definition Append (err : multierror) (msg : string) : multierror :=
  Some (default [] err ++ [msg]).

(** The messages a multierror holds ([WrappedErrors]); nil holds none. *)
Definition WrappedErrors (err : multierror) : list string := default [] err.

(** [ValidateResult] holds the validation results. *)
Record ValidateResult := {
  Criticals : multierror;
  Warnings : multierror
}.

(** What the validator library records for one [ReportError] call and gives
    back through [StructNamespace()], [Field()], [Tag()] and [Param()]. *)
Record FieldError := {
  StructNamespace : string;
  Field : string;
  Tag : string;
  Param : string
}.

#[global] Instance FieldError_eq_dec : EqDecision FieldError.
Proof. solve_decision. Defined.

(** The configuration structs a struct-level validator is registered for.
    Their declarations are not among the sources; each record lists the
    fields the validators read. *)
Record Slack := { Slack_Enabled : bool; Slack_Token : string }.

Record SocketSlack := {
  SocketSlack_Enabled : bool;
  SocketSlack_BotToken : string;
  SocketSlack_AppToken : string
}.

Record Namespaces := { Include : list string }.

Record BotBindings := {
  BotBindings_Sources : list string;
  BotBindings_Executors : list string
}.

Record ActionBindings := {
  ActionBindings_Sources : list string;
  ActionBindings_Executors : list string
}.

Record SinkBindings := { SinkBindings_Sources : list string }.

(** [sl.Current().Interface()]: the struct being validated, a value of one of
    the registered types. *)
Inductive StructValue :=
  | VSlack (slack : Slack)
  | VSocketSlack (slack : SocketSlack)
  | VNamespaces (ns : Namespaces)
  | VBotBindings (bindings : BotBindings)
  | VActionBindings (bindings : ActionBindings)
  | VSinkBindings (bindings : SinkBindings).

Section validator.

(** The value types of [Config.Sources] and [Config.Executors]; the validators
    only test keys for presence. *)
Context {Sources Executors : Type}.

(** [AllNamespaceIndicator]: the constant is declared outside the sources. *)
Variable AllNamespaceIndicator : string.

(** The translations the library registers by default
    ([en_translations.RegisterDefaultTranslations]), for the tags that have no
    translation registered in this package. *)
Variable defaultTranslation : FieldError -> string.

(** Modelled from the spec: the declaration of [Config] is not among the
    sources. A configuration is its two global mappings, [sources] and
    [executors], together with the nested structs the validator library
    walks into, each with the namespace path (ending in a dot) under which
    it is reached, in visiting order. *)
Record Config := {
  Config_Sources : gmap string Sources;
  Config_Executors : gmap string Executors;
  Config_Nested : list (string * StructValue)
}.

(** [sl.Top().Interface()]: the value [ValidateStruct] was called with, a
    [Config] or some other struct. *)
Inductive TopValue :=
  | TopConfig (conf : Config)
  | TopOther (nested : list (string * StructValue)).

Definition nestedOf (top : TopValue) : list (string * StructValue) :=
  match top with
  | TopConfig conf => Config_Nested conf
  | TopOther nested => nested
  end.

(** [validator.StructLevel]: the top value, the current struct, the namespace
    of the current struct and the errors reported so far. *)
Record StructLevel := {
  sl_Top : TopValue;
  sl_Current : StructValue;
  sl_ns : string;
  sl_errs : list FieldError
}.

(** What [Field()] gives back for an error reported on [fieldName] under the
    namespace [ns]. The validator library keeps the namespace followed by the
    field name, and the length of the field name as
    [fieldLen: uint8(len(fieldName))]; [Field()] is
    [fe.ns[len(fe.ns)-int(fe.fieldLen):]]. A field name shorter than 256
    bytes is given back whole, a longer one is cut down to its last
    [len(fieldName) mod 256] bytes. *)
Definition reportedField (ns fieldName : string) : string :=
  lastBytes (uint8 (String.length fieldName)) (ns +:+ fieldName).

(** [sl.ReportError(field, fieldName, structFieldName, tag, param)] of the
    validator library appends one field error. An empty [structFieldName]
    stands for [fieldName]; no tag-name function is registered by
    [ValidateStruct], so the two namespaces the library keeps differ only
    when the two names do. The field's value is kept by the library for
    [Value()] only and is left out. *)
Definition ReportError (sl : StructLevel)
    (fieldName structFieldName tag param : string) : StructLevel :=
  let structFieldName :=
    if decide (String.length structFieldName = 0) then fieldName
    else structFieldName in
  let str1 := sl_ns sl +:+ fieldName in
  let str2 :=
    if decide (fieldName <> structFieldName) then sl_ns sl +:+ structFieldName
    else str1 in
  {| sl_Top := sl_Top sl;
     sl_Current := sl_Current sl;
     sl_ns := sl_ns sl;
     sl_errs := sl_errs sl ++
       [ {| StructNamespace := str2;
            Field := reportedField (sl_ns sl) fieldName;
            Tag := tag; Param := param |} ] |}.

Definition slackStructTokenValidator (sl : StructLevel) : StructLevel :=
  match sl_Current sl with
  | VSlack slack =>
      if negb (Slack_Enabled slack) then sl
      else if decide (Slack_Token slack = "") then
        ReportError sl "Token" "Token" "required" ""
      else if negb (HasPrefix (Slack_Token slack) botTokenPrefix) then
        let msg := "must have the " +:+ botTokenPrefix +:+
          " prefix. Learn more at https://botkube.io/docs/installation/slack/#install-botkube-slack-app-to-your-slack-workspace" in
        ReportError sl "Token" "Token" "invalid_slack_token" msg
      else sl
  | _ => sl
  end.

Definition socketSlackStructTokenValidator (sl : StructLevel) : StructLevel :=
  match sl_Current sl with
  | VSocketSlack slack =>
      if negb (SocketSlack_Enabled slack) then sl
      else
        let sl :=
          if decide (SocketSlack_AppToken slack = "") then
            ReportError sl "AppToken" "AppToken" "required" ""
          else sl in
        let sl :=
          if decide (SocketSlack_BotToken slack = "") then
            ReportError sl "BotToken" "BotToken" "required" ""
          else sl in
        let sl :=
          if negb (HasPrefix (SocketSlack_BotToken slack) botTokenPrefix) then
            let msg := "must have the " +:+ botTokenPrefix +:+
              " prefix. Learn more at https://botkube.io/docs/installation/socketslack/#obtain-bot-token" in
            ReportError sl "BotToken" "BotToken" "invalid_slack_token" msg
          else sl in
        if negb (HasPrefix (SocketSlack_AppToken slack) appTokenPrefix) then
          let msg := "must have the " +:+ appTokenPrefix +:+
            " prefix. Learn more at https://botkube.io/docs/installation/socketslack/#generate-and-obtain-app-level-token" in
          ReportError sl "AppToken" "AppToken" "invalid_slack_token" msg
        else sl
  | _ => sl
  end.

(** The closure [foundAllNamespaceIndicator] of [namespacesStructValidator]. *)
Fixpoint foundAllNamespaceIndicator (include : list string) : bool :=
  match include with
  | [] => false
  | name :: rest =>
      if decide (name = AllNamespaceIndicator) then true
      else foundAllNamespaceIndicator rest
  end.

Definition namespacesStructValidator (sl : StructLevel) : StructLevel :=
  match sl_Current sl with
  | VNamespaces ns =>
      if decide (length (Include ns) < 2) then sl
      else if foundAllNamespaceIndicator (Include ns) then
        ReportError sl "Include" "Include" nsIncludeTag ""
      else sl
  | _ => sl
  end.

Fixpoint validateSourceBindings (sl : StructLevel)
    (sources : gmap string Sources) (bindings : list string) : StructLevel :=
  match bindings with
  | [] => sl
  | source :: rest =>
      let sl :=
        match sources !! source with
        | None => ReportError sl source source invalidBindingTag "Config.Sources"
        | Some _ => sl
        end in
      validateSourceBindings sl sources rest
  end.

Fixpoint validateExecutorBindings (sl : StructLevel)
    (executors : gmap string Executors) (bindings : list string) : StructLevel :=
  match bindings with
  | [] => sl
  | executor :: rest =>
      let sl :=
        match executors !! executor with
        | None => ReportError sl executor executor invalidBindingTag "Config.Executors"
        | Some _ => sl
        end in
      validateExecutorBindings sl executors rest
  end.

Definition botBindingsStructValidator (sl : StructLevel) : StructLevel :=
  match sl_Current sl with
  | VBotBindings bindings =>
      match sl_Top sl with
      | TopConfig conf =>
          let sl := validateSourceBindings sl (Config_Sources conf)
                      (BotBindings_Sources bindings) in
          validateExecutorBindings sl (Config_Executors conf)
            (BotBindings_Executors bindings)
      | _ => sl
      end
  | _ => sl
  end.

Definition actionBindingsStructValidator (sl : StructLevel) : StructLevel :=
  match sl_Current sl with
  | VActionBindings bindings =>
      match sl_Top sl with
      | TopConfig conf =>
          let sl := validateSourceBindings sl (Config_Sources conf)
                      (ActionBindings_Sources bindings) in
          validateExecutorBindings sl (Config_Executors conf)
            (ActionBindings_Executors bindings)
      | _ => sl
      end
  | _ => sl
  end.

Definition sinkBindingsStructValidator (sl : StructLevel) : StructLevel :=
  match sl_Current sl with
  | VSinkBindings bindings =>
      match sl_Top sl with
      | TopConfig conf =>
          validateSourceBindings sl (Config_Sources conf)
            (SinkBindings_Sources bindings)
      | _ => sl
      end
  | _ => sl
  end.

(** The table built by the [RegisterStructValidation] calls: the validator
    registered for the type of the current struct. *)
Definition registeredValidation (sl : StructLevel) : StructLevel :=
  match sl_Current sl with
  | VSlack _ => slackStructTokenValidator sl
  | VSocketSlack _ => socketSlackStructTokenValidator sl
  | VNamespaces _ => namespacesStructValidator sl
  | VBotBindings _ => botBindingsStructValidator sl
  | VActionBindings _ => actionBindingsStructValidator sl
  | VSinkBindings _ => sinkBindingsStructValidator sl
  end.

(** [validate.Struct(in)], its struct-level part: every nested struct is
    visited and handed to its registered validator, the errors accumulating
    in one list. The rules written as [validate] field tags on the
    configuration types are declared outside the sources and are not part
    of the model: [Struct] lists the errors of the six validators of this
    package, to which the program adds those of the field tags. What
    [ValidateStruct] does with a list of errors is [validationResult], for
    any list. *)
Definition visit (top : TopValue) (errs : list FieldError)
    (v : string * StructValue) : list FieldError :=
  sl_errs (registeredValidation
    {| sl_Top := top; sl_Current := v.2; sl_ns := v.1; sl_errs := errs |}).

Definition Struct (top : TopValue) : list FieldError :=
  foldl (visit top) [] (nestedOf top).

(** [translateFunc] with the templates the [registerFn] closures add for the
    three tags of this package: [ut.T(fe.Tag(), fe.Field(), fe.Param())]. *)
Definition translateFunc (fe : FieldError) : string :=
  if decide (Tag fe = nsIncludeTag) then
    Field fe +:+ " matches both all and exact namespaces"
  else if decide (Tag fe = invalidBindingTag) then
    "'" +:+ Field fe +:+ "' binding not defined in " +:+ Param fe
  else if decide (Tag fe = "invalid_slack_token") then
    Field fe +:+ " " +:+ Param fe
  else defaultTranslation fe.

(** [fmt.Errorf("Key: '%s' %s", e.StructNamespace(), e.Translate(trans))]. *)
Definition Errorf (e : FieldError) : string :=
  "Key: '" +:+ StructNamespace e +:+ "' " +:+ translateFunc e.

(** The loop of [ValidateStruct] over the validation errors. *)
Fixpoint routeErrors (errs : list FieldError) (result : ValidateResult)
    : ValidateResult :=
  match errs with
  | [] => result
  | e :: rest =>
      let msg := Errorf e in
      if decide (Tag e ∈ warnsOnlyTags) then
        routeErrors rest
          {| Criticals := Criticals result;
             Warnings := Append (Warnings result) msg |}
      else
        routeErrors rest
          {| Criticals := Append (Criticals result) msg;
             Warnings := Warnings result |}
  end.

(** [ValidateStruct] once [validate.Struct(in)] has returned, for the
    validation errors it returned, whichever rules reported them: no error
    is the nil [err], for which the zero [ValidateResult] is returned. *)
Definition validationResult (errs : list FieldError) : ValidateResult :=
  match errs with
  | [] => {| Criticals := None; Warnings := None |}
  | _ :: _ => routeErrors errs {| Criticals := New; Warnings := New |}
  end.

(** [ValidateStruct(in)]. Its [error] result is not nil only when one of the
    library's registration calls fails or when the input is no struct;
    neither happens for the inputs modelled here, and the result, nil then,
    is left out. *)
Definition ValidateStruct (top : TopValue) : ValidateResult :=
  validationResult (Struct top).

(** *** What the specification expects of the validator *)

(** A struct level after further errors were reported. *)
Definition reported (sl : StructLevel) (new : list FieldError) : StructLevel :=
  {| sl_Top := sl_Top sl; sl_Current := sl_Current sl; sl_ns := sl_ns sl;
     sl_errs := sl_errs sl ++ new |}.

(** The [invalid_binding] error of one entry of a binding list reached under
    [ns]: its key is the path followed by the name, its field the name as
    the library gives it back. *)
Definition missingBinding (ns param name : string) : FieldError :=
  {| StructNamespace := ns +:+ name; Field := reportedField ns name;
     Tag := invalidBindingTag; Param := param |}.

(** One [invalid_binding] error for every entry of a binding list that is
    not a key of the global mapping, in the order of the list; a name the
    list holds twice is counted twice. *)
Definition missingBindings (ns : string) (defined : gset string)
    (param : string) (bindings : list string) : list FieldError :=
  missingBinding ns param <$> filter (fun name => name ∉ defined) bindings.

(** The binding errors expected of one nested struct of a configuration. *)
Definition bindingViolations (conf : Config) (v : string * StructValue)
    : list FieldError :=
  match v.2 with
  | VBotBindings bindings =>
      missingBindings v.1 (dom (Config_Sources conf)) "Config.Sources"
        (BotBindings_Sources bindings)
      ++ missingBindings v.1 (dom (Config_Executors conf)) "Config.Executors"
           (BotBindings_Executors bindings)
  | VActionBindings bindings =>
      missingBindings v.1 (dom (Config_Sources conf)) "Config.Sources"
        (ActionBindings_Sources bindings)
      ++ missingBindings v.1 (dom (Config_Executors conf)) "Config.Executors"
           (ActionBindings_Executors bindings)
  | VSinkBindings bindings =>
      missingBindings v.1 (dom (Config_Sources conf)) "Config.Sources"
        (SinkBindings_Sources bindings)
  | _ => []
  end.

(** The namespace error expected of one nested struct: one for an [Include]
    list of two entries or more that holds the all-namespaces indicator,
    none otherwise. *)
Definition nsIncludeViolations (v : string * StructValue) : list FieldError :=
  match v.2 with
  | VNamespaces ns =>
      if decide (2 <= length (Include ns) /\ AllNamespaceIndicator ∈ Include ns)
      then [ {| StructNamespace := v.1 +:+ "Include"; Field := "Include";
                Tag := nsIncludeTag; Param := "" |} ]
      else []
  | _ => []
  end.

End validator.

(** [config.CommPlatformIntegration]: the names the sources use. *)
Inductive CommPlatformIntegration :=
  | SlackCommPlatformIntegration
  | SocketSlackCommPlatformIntegration.

(** [config.IntegrationType]: the name the sources use. *)
Inductive IntegrationType := BotIntegrationType.

End config.

(** ** Package command: where a command comes from *)
Module command.

(** [command.Origin]: the constants the sources name. *)
Inductive Origin :=
  | TypedOrigin
  | ButtonClickOrigin
  | MultiSelectValueChangeOrigin
  | SelectValueChangeOrigin
  | PlainTextInputOrigin
  | AutomationOrigin
  | UnknownOrigin.

End command.

(** ** Package interactive: the response message handed to a bot *)
Module interactive.

(** Modelled from the spec: the kind of a message; the declaration is not
    among the sources, which only compare against [Popup]. A message built
    without a kind is a [Default] one. *)
Inductive MessageType := Default | Popup.

#[global] Instance MessageType_eq_dec : EqDecision MessageType.
Proof. solve_decision. Defined.

Section message.
Context {SectionT LabelInputT : Type}.

(** Modelled from the spec: [interactive.Message], declared outside the
    sources. [Type], [PlaintextInputs], [OnlyVisibleForYou] and
    [ReplaceOriginal] are the fields [send] reads; [Sections] stands for the
    interactive elements other than plain-text inputs. *)
Record Message := {
  Type_ : MessageType;
  Sections : list SectionT;
  PlaintextInputs : list LabelInputT;
  OnlyVisibleForYou : bool;
  ReplaceOriginal : bool
}.

End message.

(** [interactive.OptionItem]: the fields the bot fills. *)
Record OptionItem := { OptionItem_Name : string; OptionItem_Value : string }.

End interactive.

(** ** Package slack: the values of the Slack client library the bot handles *)
Module slack.

(** [slack.OptionBlockObject]: the field the resolver reads. *)
Record OptionBlockObject := { Option_Value : string }.

(** [slack.BlockAction]: the fields the resolver reads; [Type] is a string
    ([slack.ActionType]). *)
Record BlockAction := {
  ActionID : string;
  BlockID : string;
  Type_ : string;
  Value : string;
  SelectedOption : OptionBlockObject;
  SelectedOptions : list OptionBlockObject
}.

(** [slack.ShareFileInfo]: the field [getThreadOptionIfNeeded] reads. *)
Record ShareFileInfo := { Ts : string }.

(** [slack.File], reduced to [file.Shares.Public]: the shares of the file by
    channel. *)
Record File := { Shares_Public : gmap string (list ShareFileInfo) }.

Section options.
Context {SectionT LabelInputT : Type}.

(** [slack.MsgOption]: the options the bot builds. The blocks rendered by
    [b.renderer.RenderInteractiveMessage(resp)] are kept as the message they
    render. *)
Inductive MsgOption :=
  | RenderInteractiveMessage (resp : @interactive.Message SectionT LabelInputT)
  | MsgOptionTS (ts : string)
  | MsgOptionReplaceOriginal (responseURL : string).

(** [slack.ModalViewRequest]: the view rendered by [b.renderer.RenderModal(resp)],
    kept as the message it renders, and its private metadata. *)
Record ModalViewRequest := {
  RenderModal : @interactive.Message SectionT LabelInputT;
  PrivateMetadata : string
}.

End options.

(** [slack.InteractionType]: the two kinds of callback the bot handles, and
    all the others. *)
Inductive InteractionType :=
  | InteractionTypeBlockActions
  | InteractionTypeViewSubmission
  | InteractionTypeOther (name : string).

(** [slack.InteractionCallback]: the fields the bot reads. [BlockActions] is
    a slice of pointers, [None] being the nil pointer; [View.State] is a
    pointer too, [None] when the view carries no state, and its [Values]
    map the id of an input block to the actions of the block by action id.
    The block action state, a pointer into the client library, is left
    out. *)
Record InteractionCallback := {
  Callback_Type : InteractionType;
  Callback_BlockActions : list (option BlockAction);
  Callback_Channel_ID : string;
  Callback_View_ID : string;
  Callback_View_PrivateMetadata : string;
  Callback_View_State : option (gmap string (gmap string BlockAction));
  Callback_MessageTs : string;
  Callback_Message_ThreadTimestamp : string;
  Callback_TriggerID : string;
  Callback_User_ID : string;
  Callback_ResponseURL : string
}.

End slack.

(** ** Package events *)
Module events.

(** [Action] describes an automated action for a given event. *)
Record Action := {
  Command : string;
  ExecutorBindings : list string;
  DisplayName : string
}.

(** [Event]. The fields whose types are declared outside the sources
    ([TypeMeta], [Level], [TimeStamp], [Object]) are left out; [Type] is a
    string ([config.EventType]) and [Count] an int32. *)
Record Event := {
  Code : string;
  Title : string;
  Name : string;
  Namespace : string;
  Messages : list string;
  Type_ : string;
  Reason : string;
  Error : string;
  Cluster : string;
  Channel : string;
  Count : Z;
  Event_Action : string;
  Skip : bool;
  Resource : string;
  Recommendations : list string;
  Warnings : list string;
  Actions : list Action
}.

(** [HasRecommendationsOrWarnings]. *)
Definition HasRecommendationsOrWarnings (e : Event) : bool :=
  bool_decide (0 < length (Recommendations e)) ||
  bool_decide (0 < length (Warnings e)).

End events.

(** ** Package sliceutil *)
Module sliceutil.

(** Modelled from the spec: [sliceutil.Intersect] is declared outside the
    sources; it tells whether two slices have an element in common
    ("non-empty set intersection, order-independent"), here by the usual
    nested loops. *)
Definition Intersect (this that : list string) : bool :=
  existsb (fun i => existsb (fun j => bool_decide (i = j)) that) this.

End sliceutil.

(** ** Package kubectl *)
Module kubectl.

(** [kubectl.Command]: the fields the bot reads. *)
Record Command := { Command_Name : string; Command_Cmd : string }.

End kubectl.

(** ** Package execute: what the bot hands to an executor *)
Module execute.

(** [execute.Conversation], as [handleMessage] fills it; [State], a pointer
    into the client library, is left out. *)
Record Conversation := {
  Alias : string;
  ID : string;
  ExecutorBindings : list string;
  IsAuthenticated : bool;
  CommandOrigin : command.Origin
}.

(** [execute.NewDefaultInput], as [handleMessage] fills it; the notifier
    handler it carries is the bot itself. *)
Record NewDefaultInput := {
  CommGroupName : string;
  Platform : config.CommPlatformIntegration;
  Conversation_ : Conversation;
  Message : string;
  User : string
}.

End execute.

(** ** Package bot: the Socket Slack bot *)
Module bot.
Import gostrings.

(** The errors the bot returns: [execute.ErrNotificationsNotConfigured], the
    [errors.New] of [send], an error coming back from the Slack client, and
    [fmt.Errorf("<context>: %w", err)]. *)
Inductive error :=
  | ErrNotificationsNotConfigured
  | ErrEmptyResponse
  | ErrClient (msg : string)
  | ErrWrap (context : string) (err : error).

(** Modelled from the spec: [channelConfigByName], declared outside the
    sources: the embedded [config.ChannelBindingsByName] ([Name], [Bindings])
    with the display alias and the runtime notification flag. *)
Record channelConfigByName := {
  Name : string;
  Bindings : config.BotBindings;
  alias : string;
  notify : bool
}.

(** Modelled from the spec: [Identifier()], declared outside the sources; the
    identity of a channel configured by name is its name. *)
Definition Identifier (c : channelConfigByName) : string := Name c.

(** [SocketSlack]: the identifiers and the channel registry. The logger, the
    Slack client, the executor factory, the reporter and the renderer are
    collaborators; the two mutexes order concurrent calls and have no effect
    on one call taken alone. *)
Record SocketSlack := {
  botID : string;
  commGroupName : string;
  channels : gmap string channelConfigByName
}.

Definition getChannels (b : SocketSlack) : gmap string channelConfigByName :=
  channels b.

Definition setChannels (b : SocketSlack)
    (channels : gmap string channelConfigByName) : SocketSlack :=
  {| botID := botID b; commGroupName := commGroupName b; channels := channels |}.

(** [NotificationsEnabled] returns current notification status for a given
    channel name. *)
Definition NotificationsEnabled (b : SocketSlack) (channelName : string) : bool :=
  match getChannels b !! channelName with
  | None => false
  | Some channel => notify channel
  end.

(** [SetNotificationsEnabled] sets a new notification status for a given
    channel name; the receiver after the call and the error returned. *)
Definition SetNotificationsEnabled (b : SocketSlack) (channelName : string)
    (enabled : bool) : SocketSlack * option error :=
  let channels := getChannels b in
  match channels !! channelName with
  | None => (b, Some ErrNotificationsNotConfigured)
  | Some channel =>
      let channel :=
        {| Name := Name channel; Bindings := Bindings channel;
           alias := alias channel; notify := enabled |} in
      let channels := <[channelName := channel]> channels in
      (setChannels b channels, None)
  end.

(** The loop of [getChannelsToNotify] over the entries of the registry, in
    the order the map hands them out. *)
Fixpoint notifyLoop (entries : list (string * channelConfigByName))
    (sourceBindings : list string) (out : list string) : list string :=
  match entries with
  | [] => out
  | (_, cfg) :: rest =>
      if negb (notify cfg) then notifyLoop rest sourceBindings out
      else if negb (sliceutil.Intersect sourceBindings
                      (config.BotBindings_Sources (Bindings cfg)))
      then notifyLoop rest sourceBindings out
      else notifyLoop rest sourceBindings (out ++ [Identifier cfg])
  end.

(** Go leaves the iteration order of a map unspecified; [map_to_list] is one
    such order. *)
Definition getChannelsToNotify (b : SocketSlack) (sourceBindings : list string)
    : list string :=
  notifyLoop (map_to_list (getChannels b)) sourceBindings [].

Definition getChannelsToNotifyForEvent (b : SocketSlack) (event : events.Event)
    (sourceBindings : list string) : list string :=
  if decide (events.Channel event <> "") then [events.Channel event]
  else getChannelsToNotify b sourceBindings.

(** What section 4.3 of the specification asks of a channel to be included:
    its notify flag is true and its source bindings intersect the event's
    originating source bindings (a non-empty set intersection). *)
Definition selected (eventSources : list string) (cfg : channelConfigByName)
    : Prop :=
  notify cfg = true /\
  Exists (fun s => s ∈ eventSources) (config.BotBindings_Sources (Bindings cfg)).

#[global] Instance selected_dec eventSources cfg :
  Decision (selected eventSources cfg).
Proof. unfold selected. apply _. Defined.

(** The reference definition of the router, after section 4.3 of the
    specification: the explicit channel of the event when it has one, else
    the [selected] channels of the registry snapshot. *)
Definition Targets_reference (event : events.Event)
    (allChannels : list (string * channelConfigByName))
    (eventSources : list string) : list string :=
  if decide (events.Channel event = "") then
    Identifier <$> filter (selected eventSources) (allChannels.*2)
  else [events.Channel event].

(** [socketSlackMessage]; [State], a pointer into the client library, is
    left out. *)
Record socketSlackMessage := {
  Text : string;
  Channel : string;
  ThreadTimeStamp : string;
  User : string;
  TriggerID : string;
  CommandOrigin : command.Origin;
  ResponseURL : string;
  BlockID : string
}.

Section resolver.

(** [strings.TrimSpace] and the [%q] verb of [fmt] (Go's quoting of a
    string), both of Go's standard library. *)
Variable TrimSpace : string -> string.
Variable Quote : string -> string.

(** The loop collecting [item.Value] for every selected option. *)
Fixpoint selectedValues (options : list slack.OptionBlockObject)
    (items : list string) : list string :=
  match options with
  | [] => items
  | item :: rest => selectedValues rest (items ++ [slack.Option_Value item])
  end.

Definition resolveBlockActionCommand (act : slack.BlockAction)
    : string * command.Origin :=
  let cmd := slack.Value act in
  let cmdOrigin := command.UnknownOrigin in
  if decide (slack.Type_ act = "multi_static_select") then
    let items := selectedValues (slack.SelectedOptions act) [] in
    (Sprintf_s_s (slack.ActionID act) (Join items ","),
     command.MultiSelectValueChangeOrigin)
  else if decide (slack.Type_ act = "static_select") then
    (Sprintf_s_s (slack.ActionID act)
       (slack.Option_Value (slack.SelectedOption act)),
     command.SelectValueChangeOrigin)
  else if decide (slack.Type_ act = "button") then
    (cmd, command.ButtonClickOrigin)
  else if decide (slack.Type_ act = "plain_text_input") then
    (slack.BlockID act +:+ Quote (TrimSpace (slack.Value act)),
     command.PlainTextInputOrigin)
  else (cmd, cmdOrigin).

End resolver.

Section delivery.
Context {SectionT LabelInputT : Type}.

Local Abbreviation Message := (@interactive.Message SectionT LabelInputT).
Local Abbreviation MsgOption := (@slack.MsgOption SectionT LabelInputT).
Local Abbreviation ModalViewRequest := (@slack.ModalViewRequest SectionT LabelInputT).

(** The loop of [getThreadOptionIfNeeded] over the public shares of a file. *)
Fixpoint firstShareOption (shares : list (list slack.ShareFileInfo))
    : option MsgOption :=
  match shares with
  | [] => None
  | share :: rest =>
      match share with
      | first :: _ =>
          if decide (slack.Ts first <> "") then
            Some (slack.MsgOptionTS (slack.Ts first))
          else firstShareOption rest
      | [] => firstShareOption rest
      end
  end.

(** A public share the loop passes over: it is empty, or the timestamp of
    its first entry is. *)
Definition skippedShare (share : list slack.ShareFileInfo) : Prop :=
  match share with
  | [] => True
  | first :: _ => slack.Ts first = ""
  end.

(** [getThreadOptionIfNeeded]; [None] is the nil option, and the nil file. The
    shares are ranged over in the order the map hands them out. *)
Definition getThreadOptionIfNeeded (event : socketSlackMessage)
    (file : option slack.File) : option MsgOption :=
  if decide (ThreadTimeStamp event <> "") then
    Some (slack.MsgOptionTS (ThreadTimeStamp event))
  else
    match file with
    | None => None
    | Some file => firstShareOption ((map_to_list (slack.Shares_Public file)).*2)
    end.

(** The calls [send] makes on the Slack client. *)
Inductive Call :=
  | CallUploadFile (channel : string) (resp : Message) (threadTs : string)
  | CallOpenView (triggerID : string) (view : ModalViewRequest)
  | CallPostEphemeral (channel user : string) (options : list MsgOption)
  | CallPostMessage (channel : string) (options : list MsgOption).

(** Whether a call uploads a file, and the message a call shows in the
    channel: the one rendered into the modal, or into the blocks that are
    the first option of a post. *)
Definition isUpload (call : Call) : bool :=
  match call with
  | CallUploadFile _ _ _ => true
  | _ => false
  end.

Definition deliveredMessage (call : Call) : option Message :=
  match call with
  | CallUploadFile _ _ _ => None
  | CallOpenView _ view => Some (slack.RenderModal view)
  | CallPostEphemeral _ _ options | CallPostMessage _ options =>
      match options with
      | slack.RenderInteractiveMessage resp :: _ => Some resp
      | _ => None
      end
  end.

(** What the Slack client answers to each call: the file and the error of
    [uploadFileToSlack], and the error of the three others. *)
Record Client := {
  uploadFileToSlack : string -> Message -> string -> option slack.File * option error;
  OpenView : string -> ModalViewRequest -> option error;
  PostEphemeral : string -> string -> list MsgOption -> option error;
  PostMessage : string -> list MsgOption -> option error
}.

(** [interactive.RenderMessage(b.mdFormatter, resp)], the constant
    [slackMaxMessageSize], both declared outside the sources, and the client. *)
Variable RenderMessage : Message -> string.
Variable slackMaxMessageSize : nat.
Variable client : Client.

(** [fmt.Errorf("<context>: %w", err)] on a non-nil error. *)
Definition wrap (context : string) (err : option error) : option error :=
  ErrWrap context <$> err.

(** The statements of [send] after the upload block: the modal, or the
    message with its options. The calls made and the error returned. *)
Definition sendRendered (event : socketSlackMessage) (resp : Message)
    (file : option slack.File) : list Call * option error :=
  if decide (interactive.Type_ resp = interactive.Popup /\ TriggerID event <> "") then
    let modalView :=
      {| slack.RenderModal := resp; slack.PrivateMetadata := Channel event |} in
    ([CallOpenView (TriggerID event) modalView],
     wrap "while opening modal" (OpenView client (TriggerID event) modalView))
  else
    let options := [slack.RenderInteractiveMessage resp] in
    let options :=
      match getThreadOptionIfNeeded event file with
      | Some ts => options ++ [ts]
      | None => options
      end in
    let options :=
      if decide (interactive.ReplaceOriginal resp = true /\ ResponseURL event <> "")
      then options ++ [slack.MsgOptionReplaceOriginal (ResponseURL event)]
      else options in
    if interactive.OnlyVisibleForYou resp then
      ([CallPostEphemeral (Channel event) (User event) options],
       wrap "while posting Slack message visible only to user"
         (PostEphemeral client (Channel event) (User event) options))
    else
      ([CallPostMessage (Channel event) options],
       wrap "while posting Slack message"
         (PostMessage client (Channel event) options)).

(** [send]: the calls made on the client, in order, and the error returned. *)
Definition send (event : socketSlackMessage) (resp : Message)
    : list Call * option error :=
  let markdown := RenderMessage resp in
  if decide (String.length markdown = 0) then ([], Some ErrEmptyResponse)
  else if decide (slackMaxMessageSize <= String.length markdown) then
    let upload := CallUploadFile (Channel event) resp (ThreadTimeStamp event) in
    match uploadFileToSlack client (Channel event) resp (ThreadTimeStamp event) with
    | (_, Some err) => ([upload], Some err)
    | (file, None) =>
        let resp :=
          {| interactive.Type_ := interactive.Default;
             interactive.Sections := [];
             interactive.PlaintextInputs := interactive.PlaintextInputs resp;
             interactive.OnlyVisibleForYou := false;
             interactive.ReplaceOriginal := false |} in
        let r := sendRendered event resp file in
        (upload :: r.1, r.2)
    end
  else sendRendered event resp None.

End delivery.

(** [IntegrationName] describes the notifier integration name. *)
Definition IntegrationName (b : SocketSlack) : config.CommPlatformIntegration :=
  config.SocketSlackCommPlatformIntegration.

(** [BotName] returns the Bot name: [fmt.Sprintf("<@%s>", b.botID)]. *)
Definition BotName (b : SocketSlack) : string := "<@" +:+ botID b +:+ ">".

(** Modelled from the spec: package multierror is not among the sources. Its
    aggregate error is the list of the errors appended to it, and
    [ErrorOrNil] is nil when no error was appended ("an aggregate error only
    if at least one target failed, enumerating each failure"). *)
Definition ErrorOrNil (errs : list error) : option (list error) :=
  match errs with
  | [] => None
  | _ :: _ => Some errs
  end.

(** The zero value of [channelConfigByName], read from the registry for a
    name that is not a key. *)
Definition zeroChannel : channelConfigByName :=
  {| Name := ""; alias := ""; notify := false;
     Bindings := {| config.BotBindings_Sources := [];
                    config.BotBindings_Executors := [] |} |}.

Section answers.
Context {SectionT LabelInputT : Type}.

(** The error, or nil, with which the Slack client answers a call. *)
Definition answer (client : Client (SectionT:=SectionT) (LabelInputT:=LabelInputT))
    (call : Call) : option error :=
  match call with
  | CallUploadFile channel resp threadTs =>
      (uploadFileToSlack client channel resp threadTs).2
  | CallOpenView triggerID view => OpenView client triggerID view
  | CallPostEphemeral channel user options =>
      PostEphemeral client channel user options
  | CallPostMessage channel options => PostMessage client channel options
  end.

(** The options of a call that posts a message; the other calls have none. *)
Definition optionsOf (call : Call (SectionT:=SectionT) (LabelInputT:=LabelInputT))
    : list slack.MsgOption :=
  match call with
  | CallPostEphemeral _ _ options | CallPostMessage _ options => options
  | _ => []
  end.

End answers.

Section fanout.
Context {SectionT LabelInputT GenericMessage : Type}.

Local Abbreviation Message := (@interactive.Message SectionT LabelInputT).
Local Abbreviation MsgOption := (@slack.MsgOption SectionT LabelInputT).

(** The [%q] verb of [fmt]; [PostMessageContext] of the Slack client, which
    answers with an error or nil; the renderer of event messages; the
    provider of event commands; [interactive.EventCommandsSection]; and
    [GenericMessage.ForBot]. All are declared outside the sources. *)
Variable Quote : string -> string.
Variable PostMessageContext : string -> list MsgOption -> option error.
Variable RenderEventMessage : events.Event -> list SectionT -> Message.
Variable GetCommandsForEvent :
  events.Event -> list string -> list kubectl.Command * option error.
Variable EventCommandsSection : string -> list interactive.OptionItem -> SectionT.
Variable ForBot : GenericMessage -> string -> Message.

(** What [send] depends on, and the identifiers [uuid.New()] hands out, the
    n-th call getting the n-th. *)
Variable RenderMessage : Message -> string.
Variable slackMaxMessageSize : nat.
Variable client : Client (SectionT:=SectionT) (LabelInputT:=LabelInputT).
Variable newUUID : nat -> string.

(** The loop of [getInteractiveEventSectionIfShould] over the commands. *)
Fixpoint optionItemsLoop (commands : list kubectl.Command)
    (optionItems : list interactive.OptionItem) : list interactive.OptionItem :=
  match commands with
  | [] => optionItems
  | cmd :: rest =>
      optionItemsLoop rest
        (optionItems ++
           [ {| interactive.OptionItem_Name := kubectl.Command_Name cmd;
                interactive.OptionItem_Value := kubectl.Command_Cmd cmd |} ])
  end.

(** [getInteractiveEventSectionIfShould]; [None] is the nil section. *)
Definition getInteractiveEventSectionIfShould (b : SocketSlack)
    (event : events.Event) (channelName : string) : option SectionT :=
  match getChannels b !! channelName with
  | None => None
  | Some channel =>
      match GetCommandsForEvent event
              (config.BotBindings_Executors (Bindings channel)) with
      | (_, Some _) => None
      | (commands, None) =>
          if decide (length commands = 0) then None
          else
            let cmdPrefix := BotName b +:+ " kubectl" in
            let optionItems := optionItemsLoop commands [] in
            Some (EventCommandsSection cmdPrefix optionItems)
      end
  end.

(** The loop of [SendEvent] over the channels to notify: the posts
    attempted, each with its channel and options, and the errors appended. *)
Fixpoint sendEventLoop (b : SocketSlack) (event : events.Event)
    (targets : list string) (errs : list error)
    (posts : list (string * list MsgOption))
    : list (string * list MsgOption) * list error :=
  match targets with
  | [] => (posts, errs)
  | channelName :: rest =>
      let additionalSection :=
        getInteractiveEventSectionIfShould b event channelName in
      let additionalSections :=
        match additionalSection with
        | Some section => [section]
        | None => []
        end in
      let msg := RenderEventMessage event additionalSections in
      let options := [slack.RenderInteractiveMessage msg] in
      let posts := posts ++ [(channelName, options)] in
      match PostMessageContext channelName options with
      | Some err =>
          sendEventLoop b event rest
            (errs ++ [ErrWrap ("while posting message to channel "
                               +:+ Quote channelName) err])
            posts
      | None => sendEventLoop b event rest errs posts
      end
  end.

(** [SendEvent] sends event notification to slack: the posts attempted and
    the error returned. *)
Definition SendEvent (b : SocketSlack) (event : events.Event)
    (eventSources : list string)
    : list (string * list MsgOption) * option (list error) :=
  let r := sendEventLoop b event
             (getChannelsToNotifyForEvent b event eventSources) [] [] in
  (r.1, ErrorOrNil r.2).

(** The loop of [SendGenericMessage]: for every channel the calls [send]
    made on the client, and the errors appended; [n] counts the
    identifiers drawn so far. *)
Fixpoint sendGenericLoop (targets : list string) (msg : Message) (n : nat)
    (errs : list error) (sends : list (string * list Call))
    : list (string * list Call) * list error :=
  match targets with
  | [] => (sends, errs)
  | channelName :: rest =>
      let msgMetadata :=
        {| Text := ""; Channel := channelName; ThreadTimeStamp := "";
           User := ""; TriggerID := ""; ResponseURL := "";
           BlockID := newUUID n;
           CommandOrigin := command.AutomationOrigin |} in
      let r := send RenderMessage slackMaxMessageSize client msgMetadata msg in
      let sends := sends ++ [(channelName, r.1)] in
      match r.2 with
      | Some err =>
          sendGenericLoop rest msg (S n)
            (errs ++ [ErrWrap ("while sending Slack message to channel "
                               +:+ Quote channelName) err])
            sends
      | None => sendGenericLoop rest msg (S n) errs sends
      end
  end.

(** [SendGenericMessage] sends message with interactive sections to selected
    Slack channels. *)
Definition SendGenericMessage (b : SocketSlack) (genericMsg : GenericMessage)
    (sourceBindings : list string)
    : list (string * list Call) * option (list error) :=
  let msg := ForBot genericMsg (BotName b) in
  let r := sendGenericLoop (getChannelsToNotify b sourceBindings) msg 0 [] [] in
  (r.1, ErrorOrNil r.2).

(** The loop of [SendMessageToAll] over the entries of the registry. *)
Fixpoint sendToAllLoop (entries : list (string * channelConfigByName))
    (msg : Message) (errs : list error)
    (posts : list (string * list MsgOption))
    : list (string * list MsgOption) * list error :=
  match entries with
  | [] => (posts, errs)
  | (_, channel) :: rest =>
      let channelName := Name channel in
      let message := slack.RenderInteractiveMessage msg in
      let posts := posts ++ [(channelName, [message])] in
      match PostMessageContext channelName [message] with
      | Some err =>
          sendToAllLoop rest msg
            (errs ++ [ErrWrap ("while sending Slack message to channel "
                               +:+ Quote channelName +:+ " (alias: "
                               +:+ Quote (alias channel) +:+ ")") err])
            posts
      | None => sendToAllLoop rest msg errs posts
      end
  end.

(** [SendMessageToAll] sends message with interactive sections to all Slack
    channels. *)
Definition SendMessageToAll (b : SocketSlack) (msg : Message)
    : list (string * list MsgOption) * option (list error) :=
  let r := sendToAllLoop (map_to_list (getChannels b)) msg [] [] in
  (r.1, ErrorOrNil r.2).

End fanout.

Section handling.
Context {SectionT LabelInputT : Type}.

Local Abbreviation Message := (@interactive.Message SectionT LabelInputT).

(** [MatchString] and [ReplaceAllString] of the bot mention regular
    expression; [GetConversationInfo] of the Slack client, which answers
    with the name of the conversation and an error or nil; and the executor
    made by the factory, which gets the bot as its notifier handler and so
    may change its registry. All are declared outside the sources. *)
Variable MatchString : string -> bool.
Variable ReplaceAllString : string -> string -> string.
Variable GetConversationInfo : string -> string * option error.
Variable Execute : execute.NewDefaultInput -> SocketSlack -> Message * SocketSlack.
Variable RenderMessage : Message -> string.
Variable slackMaxMessageSize : nat.
Variable client : Client (SectionT:=SectionT) (LabelInputT:=LabelInputT).

Definition findAndTrimBotMention (msg : string) : string * bool :=
  if negb (MatchString msg) then ("", false)
  else (ReplaceAllString msg "", true).

(** What [handleMessage] asks of its collaborators, in order. *)
Inductive Request :=
  | AskConversationInfo (channel : string)
  | AskExecute (input : execute.NewDefaultInput)
  | AskClient (call : Call (SectionT:=SectionT) (LabelInputT:=LabelInputT)).

(** [handleMessage]: the bot after the call, the requests made and the error
    returned. *)
Definition handleMessage (b : SocketSlack) (event : socketSlackMessage)
    : SocketSlack * list Request * option error :=
  let (request, found) := findAndTrimBotMention (Text event) in
  if negb found then (b, [], None)
  else
    match GetConversationInfo (Channel event) with
    | (_, Some err) =>
        (b, [AskConversationInfo (Channel event)],
         Some (ErrWrap "while getting conversation info" err))
    | (infoName, None) =>
        let entry := getChannels b !! infoName in
        let channel := default zeroChannel entry in
        let isAuthChannel := bool_decide (is_Some entry) in
        let input :=
          {| execute.CommGroupName := commGroupName b;
             execute.Platform := IntegrationName b;
             execute.Conversation_ :=
               {| execute.Alias := alias channel;
                  execute.ID := Identifier channel;
                  execute.ExecutorBindings :=
                    config.BotBindings_Executors (Bindings channel);
                  execute.IsAuthenticated := isAuthChannel;
                  execute.CommandOrigin := CommandOrigin event |};
             execute.Message := request;
             execute.User := "<@" +:+ User event +:+ ">" |} in
        let (response, b') := Execute input b in
        let r := send RenderMessage slackMaxMessageSize client event response in
        (b',
         [AskConversationInfo (Channel event); AskExecute input]
           ++ (AskClient <$> r.1),
         wrap "while sending message" r.2)
    end.

End handling.

Section interactions.

(** [strings.TrimSpace], the [%q] verb and the constant
    [urlButtonActionIDPrefix], declared outside the sources. *)
Variable TrimSpace : string -> string.
Variable Quote : string -> string.
Variable urlButtonActionIDPrefix : string.

(** What the loop of [Start] does with one interactive callback, once it is
    acknowledged: nothing, a report of the URL button to the analytics
    reporter, the messages handed to [handleMessage], or the dereference of
    a nil pointer (a nil action, or the nil state of a view). *)
Inductive Reaction :=
  | Ignored
  | ReportedCommand (actionID : string) (origin : command.Origin)
  | Handled (msgs : list socketSlackMessage)
  | NilDereference.

(** The case [slack.InteractionTypeBlockActions]. *)
Definition onBlockActions (callback : slack.InteractionCallback) : Reaction :=
  if decide (length (slack.Callback_BlockActions callback) <> 1) then Ignored
  else
    match slack.Callback_BlockActions callback with
    | [] => Ignored
    | None :: _ => NilDereference
    | Some act :: _ =>
        if HasPrefix (slack.ActionID act) urlButtonActionIDPrefix then
          ReportedCommand (slack.ActionID act) command.ButtonClickOrigin
        else
          let channelID := slack.Callback_Channel_ID callback in
          if decide (channelID = "" /\ slack.Callback_View_ID callback <> "")
          then Ignored
          else
            let (cmd, cmdOrigin) := resolveBlockActionCommand TrimSpace Quote act in
            let threadTs :=
              if decide (slack.Callback_Message_ThreadTimestamp callback <> "")
              then slack.Callback_Message_ThreadTimestamp callback
              else slack.Callback_MessageTs callback in
            Handled
              [ {| Text := cmd; Channel := channelID;
                   ThreadTimeStamp := threadTs;
                   TriggerID := slack.Callback_TriggerID callback;
                   User := slack.Callback_User_ID callback;
                   CommandOrigin := cmdOrigin;
                   ResponseURL := slack.Callback_ResponseURL callback;
                   BlockID := slack.BlockID act |} ]
    end.

(** The message of the case [slack.InteractionTypeViewSubmission] for one
    action of the submitted view, its id normalised to the key it is
    stored under. *)
Definition submittedMessage (callback : slack.InteractionCallback)
    (actID : string) (act : slack.BlockAction) : socketSlackMessage :=
  let act :=
    {| slack.ActionID := actID; slack.BlockID := slack.BlockID act;
       slack.Type_ := slack.Type_ act; slack.Value := slack.Value act;
       slack.SelectedOption := slack.SelectedOption act;
       slack.SelectedOptions := slack.SelectedOptions act |} in
  let (cmd, cmdOrigin) := resolveBlockActionCommand TrimSpace Quote act in
  {| Text := cmd; Channel := slack.Callback_View_PrivateMetadata callback;
     ThreadTimeStamp := ""; TriggerID := "";
     User := slack.Callback_User_ID callback;
     CommandOrigin := cmdOrigin; ResponseURL := ""; BlockID := "" |}.

(** The two nested loops of the case [slack.InteractionTypeViewSubmission]
    over [callback.View.State.Values]. Go leaves the order of a range over
    a map open; the maps are ranged over in the order of their lists of
    entries here, and no property below depends on the order. *)
Definition submittedMessages (callback : slack.InteractionCallback)
    (values : gmap string (gmap string slack.BlockAction))
    : list socketSlackMessage :=
  flat_map
    (fun item =>
       (fun entry => submittedMessage callback entry.1 entry.2)
       <$> map_to_list item.2)
    (map_to_list values).

(** The actions a view state holds, each with the id of its input block and
    the key it is stored under, in the order the loops meet them. *)
Definition storedActions (values : gmap string (gmap string slack.BlockAction))
    : list (string * string * slack.BlockAction) :=
  flat_map
    (fun item => (fun entry => (item.1, entry.1, entry.2)) <$> map_to_list item.2)
    (map_to_list values).

(** The case [slack.InteractionTypeViewSubmission]: [callback.View.State] is
    dereferenced to range over its values, whether it is nil or not. *)
Definition onViewSubmission (callback : slack.InteractionCallback) : Reaction :=
  match slack.Callback_View_State callback with
  | None => NilDereference
  | Some values => Handled (submittedMessages callback values)
  end.

(** The case [socketmode.EventTypeInteractive] of [Start]. *)
Definition onInteractive (callback : slack.InteractionCallback) : Reaction :=
  match slack.Callback_Type callback with
  | slack.InteractionTypeBlockActions => onBlockActions callback
  | slack.InteractionTypeViewSubmission => onViewSubmission callback
  | slack.InteractionTypeOther _ => Ignored
  end.

End interactions.

End bot.

(** ** Package execute, the test double of the notifier handler *)
Module execute_test.

(** [fakeNotifierHandler]. *)
Record fakeNotifierHandler := { conf : gmap string bool }.

Definition NotificationsEnabled (f : fakeNotifierHandler) (convID : string)
    : bool :=
  match conf f !! convID with
  | None => false
  | Some enabled => enabled
  end.

Definition SetNotificationsEnabled (f : fakeNotifierHandler) (convID : string)
    (enabled : bool) : fakeNotifierHandler * option bot.error :=
  match conf f !! convID with
  | None => (f, Some bot.ErrNotificationsNotConfigured)
  | Some _ => ({| conf := <[convID := enabled]> (conf f) |}, None)
  end.

Definition BotName (f : fakeNotifierHandler) : string := "fake".

End execute_test.

(** * Properties *)

(** ** The channel registry *)
Module RegistryProps.
Import bot.

Lemma getChannels_setChannels (b : SocketSlack)
    (m : gmap string channelConfigByName) :
  getChannels (setChannels b m) = m.
Proof. reflexivity. Qed.

Lemma SetNotificationsEnabled_absent (b : SocketSlack) (channelName : string)
    (enabled : bool) :
  getChannels b !! channelName = None ->
  SetNotificationsEnabled b channelName enabled
  = (b, Some ErrNotificationsNotConfigured).
Proof. intros Hnone. unfold SetNotificationsEnabled. by rewrite Hnone. Qed.

Lemma SetNotificationsEnabled_present (b : SocketSlack) (channelName : string)
    (enabled : bool) (channel : channelConfigByName) :
  getChannels b !! channelName = Some channel ->
  SetNotificationsEnabled b channelName enabled
  = (setChannels b
       (<[channelName :=
            {| Name := Name channel; Bindings := Bindings channel;
               alias := alias channel; notify := enabled |}]> (getChannels b)),
     None).
Proof. intros Hsome. unfold SetNotificationsEnabled. by rewrite Hsome. Qed.

(** C3. [SetNotificationsEnabled] returns an error, and then
    [ErrNotificationsNotConfigured], exactly when the channel name is not a
    key of the registry; on that error the receiver, so the registry, is
    unchanged; it succeeds exactly when the name is a key; and in both cases
    the registry keeps the keys it had: no entry is created. *)
Theorem SetNotificationsEnabled_error_iff_absent (b : SocketSlack)
    (channelName : string) (enabled : bool) :
  let r := SetNotificationsEnabled b channelName enabled in
  (r.2 <> None <-> getChannels b !! channelName = None)
  /\ (r.2 = Some ErrNotificationsNotConfigured
      <-> getChannels b !! channelName = None)
  /\ (r.2 = None <-> is_Some (getChannels b !! channelName))
  /\ (r.2 <> None -> r.1 = b)
  /\ dom (getChannels r.1) = dom (getChannels b).
Proof.
  cbv zeta.
  destruct (getChannels b !! channelName) as [channel|] eqn:Hlook.
  - rewrite (SetNotificationsEnabled_present _ _ _ _ Hlook). cbn [fst snd].
    repeat split; try done; try by eauto.
    rewrite getChannels_setChannels, dom_insert_L.
    apply elem_of_dom_2 in Hlook.
    by apply subseteq_union_1_L, singleton_subseteq_l.
  - rewrite (SetNotificationsEnabled_absent _ _ _ Hlook). cbn [fst snd].
    repeat split; try done; by intros [? ?].
Qed.

(** C4. When the channel is configured the call succeeds and changes the
    notify field of that entry only: the entry afterwards carries [enabled]
    and the name, bindings and alias it had, [NotificationsEnabled] returns
    [enabled], every other entry and the other fields of the bot are as
    before, and enabling then disabling leaves the channel disabled. *)
Theorem SetNotificationsEnabled_changes_notify_only (b : SocketSlack)
    (channelName : string) (enabled : bool) (channel : channelConfigByName) :
  getChannels b !! channelName = Some channel ->
  let b' := (SetNotificationsEnabled b channelName enabled).1 in
  (SetNotificationsEnabled b channelName enabled).2 = None
  /\ (exists channel',
        getChannels b' !! channelName = Some channel'
        /\ notify channel' = enabled
        /\ Name channel' = Name channel
        /\ Bindings channel' = Bindings channel
        /\ alias channel' = alias channel)
  /\ NotificationsEnabled b' channelName = enabled
  /\ (forall other, other <> channelName ->
        getChannels b' !! other = getChannels b !! other)
  /\ botID b' = botID b
  /\ commGroupName b' = commGroupName b
  /\ NotificationsEnabled
       (SetNotificationsEnabled
          (SetNotificationsEnabled b channelName true).1 channelName false).1
       channelName = false.
Proof.
  intros Hlook. cbv zeta.
  rewrite (SetNotificationsEnabled_present _ _ enabled _ Hlook). cbn [fst snd].
  split; [done|]. split.
  { eexists. rewrite getChannels_setChannels, lookup_insert_eq. eauto. }
  split.
  { unfold NotificationsEnabled.
    by rewrite getChannels_setChannels, lookup_insert_eq. }
  split.
  { intros other Hne. rewrite getChannels_setChannels.
    by rewrite lookup_insert_ne. }
  split; [done|]. split; [done|].
  rewrite (SetNotificationsEnabled_present _ _ true _ Hlook). cbn [fst].
  erewrite SetNotificationsEnabled_present
    by (rewrite getChannels_setChannels; apply lookup_insert_eq).
  cbn [fst]. unfold NotificationsEnabled.
  by rewrite getChannels_setChannels, lookup_insert_eq.
Qed.

(** C10. A channel name that is not a key of the registry reads as
    notifications disabled; [NotificationsEnabled] is a total function of the
    bot and the name and leaves the registry as it is. *)
Theorem NotificationsEnabled_unconfigured_false (b : SocketSlack)
    (channelName : string) :
  getChannels b !! channelName = None ->
  NotificationsEnabled b channelName = false.
Proof. intros Hnone. unfold NotificationsEnabled. by rewrite Hnone. Qed.

(** The witness of C4: the channel "general", configured with its
    notifications off, is enabled and then disabled. *)
Lemma SetNotificationsEnabled_changes_notify_only_witness :
  let general :=
    {| Name := "general"; alias := "gen"; notify := false;
       Bindings := {| config.BotBindings_Sources := ["k8s-events"];
                      config.BotBindings_Executors := ["kubectl-read-only"] |} |} in
  let b := {| botID := "U1"; commGroupName := "default-group";
              channels := {[ "general" := general ]} |} in
  getChannels b !! "general" = Some general
  /\ (SetNotificationsEnabled b "general" true).2 = None
  /\ NotificationsEnabled (SetNotificationsEnabled b "general" true).1 "general"
     = true
  /\ NotificationsEnabled
       (SetNotificationsEnabled
          (SetNotificationsEnabled b "general" true).1 "general" false).1
       "general" = false.
Proof.
  cbv zeta.
  match goal with
  | |- ?lookup = Some ?general /\ _ =>
      assert (Hlook : lookup = Some general) by apply lookup_singleton_eq
  end.
  split; [exact Hlook|].
  destruct (SetNotificationsEnabled_changes_notify_only _ _ true _ Hlook)
    as (Hok & _ & Hon & _ & _ & _ & Hoff).
  exact (conj Hok (conj Hon Hoff)).
Defined.

(** The witness of C10: the channel "random" is not configured. *)
Lemma NotificationsEnabled_unconfigured_false_witness :
  let general :=
    {| Name := "general"; alias := "gen"; notify := true;
       Bindings := {| config.BotBindings_Sources := ["k8s-events"];
                      config.BotBindings_Executors := [] |} |} in
  let b := {| botID := "U1"; commGroupName := "default-group";
              channels := {[ "general" := general ]} |} in
  getChannels b !! "random" = None
  /\ NotificationsEnabled b "random" = false.
Proof.
  cbv zeta.
  match goal with
  | |- ?lookup = None /\ _ =>
      assert (Hlook : lookup = None) by (by apply lookup_singleton_ne)
  end.
  split; [exact Hlook|].
  exact (NotificationsEnabled_unconfigured_false _ _ Hlook).
Defined.

End RegistryProps.

(** ** The notification router *)
Module RouterProps.
Import bot.

Lemma Intersect_true (this that : list string) :
  sliceutil.Intersect this that = true <-> exists s, s ∈ this /\ s ∈ that.
Proof.
  unfold sliceutil.Intersect. rewrite existsb_exists. split.
  - intros (i & Hi & Hex). apply existsb_exists in Hex as (j & Hj & Heq).
    apply bool_decide_eq_true in Heq as ->.
    exists j. by rewrite !list_elem_of_In.
  - intros (s & Hthis & Hthat). exists s. rewrite <- list_elem_of_In.
    split; [done|]. apply existsb_exists. exists s.
    rewrite <- list_elem_of_In. split; [done|]. by apply bool_decide_eq_true.
Qed.

(** The nested loops decide the order-independent intersection. *)
Lemma Intersect_Exists (eventSources bound : list string) :
  sliceutil.Intersect eventSources bound = true
  <-> Exists (fun s => s ∈ eventSources) bound.
Proof.
  rewrite Intersect_true, Exists_exists.
  split; intros (s & ? & ?); exists s; done.
Qed.

Lemma Intersect_comm (this that : list string) :
  sliceutil.Intersect this that = sliceutil.Intersect that this.
Proof.
  apply eq_true_iff_eq. rewrite !Intersect_true.
  split; intros (s & ? & ?); exists s; done.
Qed.

Lemma notifyLoop_filter (entries : list (string * channelConfigByName))
    (sourceBindings out : list string) :
  notifyLoop entries sourceBindings out
  = out ++ (Identifier <$> filter (selected sourceBindings) (entries.*2)).
Proof.
  revert out. induction entries as [|[key cfg] rest IH]; intros out; simpl.
  { by rewrite app_nil_r. }
  destruct (notify cfg) eqn:Hnotify; simpl.
  - destruct (sliceutil.Intersect sourceBindings
                (config.BotBindings_Sources (Bindings cfg))) eqn:Hint; simpl.
    + rewrite IH, filter_cons_True.
      * by rewrite fmap_cons, <- app_assoc.
      * split; [done|]. by apply Intersect_Exists.
    + rewrite IH, filter_cons_False; [done|].
      intros [_ Hex]. apply Intersect_Exists in Hex. congruence.
  - rewrite IH, filter_cons_False; [done|]. intros [? _]. congruence.
Qed.

Lemma getChannelsToNotify_filter (b : SocketSlack) (sourceBindings : list string) :
  getChannelsToNotify b sourceBindings
  = Identifier <$>
      filter (selected sourceBindings) ((map_to_list (getChannels b)).*2).
Proof. unfold getChannelsToNotify. by rewrite notifyLoop_filter. Qed.

Lemma elem_of_getChannelsToNotify (b : SocketSlack)
    (sourceBindings : list string) (id : string) :
  id ∈ getChannelsToNotify b sourceBindings
  <-> exists key cfg,
        getChannels b !! key = Some cfg /\ Identifier cfg = id
        /\ notify cfg = true
        /\ exists s, s ∈ sourceBindings
                     /\ s ∈ config.BotBindings_Sources (Bindings cfg).
Proof.
  rewrite getChannelsToNotify_filter, list_elem_of_fmap. split.
  - intros (cfg & -> & Hin). apply list_elem_of_filter in Hin as [[Hn Hex] Hin].
    apply list_elem_of_fmap in Hin as ([key cfg'] & -> & Hin).
    apply elem_of_map_to_list in Hin. exists key, cfg'. simpl in *.
    repeat split; try done.
    apply Exists_exists in Hex as (s & ? & ?). by exists s.
  - intros (key & cfg & Hlook & <- & Hn & s & Hs1 & Hs2). exists cfg.
    split; [done|]. apply list_elem_of_filter. split.
    + split; [done|]. apply Exists_exists. eauto.
    + apply list_elem_of_fmap. exists (key, cfg). split; [done|].
      by apply elem_of_map_to_list.
Qed.

(** A channel whose notifications are disabled adds nothing to the targets:
    with or without its entry the registry selects the same channels. *)
Lemma getChannelsToNotify_skips_disabled (b : SocketSlack)
    (sourceBindings : list string) (key : string) (cfg : channelConfigByName) :
  getChannels b !! key = Some cfg -> notify cfg = false ->
  getChannelsToNotify (setChannels b (delete key (getChannels b))) sourceBindings
  ≡ₚ getChannelsToNotify b sourceBindings.
Proof.
  intros Hlook Hoff. rewrite !getChannelsToNotify_filter.
  rewrite RegistryProps.getChannels_setChannels.
  rewrite <- (map_to_list_delete (getChannels b) key cfg Hlook).
  rewrite fmap_cons. simpl. rewrite filter_cons_False; [done|].
  intros [? _]. congruence.
Qed.

(** C1. The targets of the router are those of the reference definition on
    the registry snapshot. An event with a channel of its own goes to that
    channel alone, whatever the registry holds; otherwise a channel
    identifier is a target exactly when some entry of the registry with that
    identifier has its notify flag set and a source binding in common with
    the event's; and an entry whose notify flag is off adds no target, also
    when its bindings intersect. *)
Theorem getChannelsToNotifyForEvent_is_Targets_reference (b : SocketSlack)
    (event : events.Event) (sourceBindings : list string) :
  getChannelsToNotifyForEvent b event sourceBindings
  = Targets_reference event (map_to_list (getChannels b)) sourceBindings
  /\ (events.Channel event <> "" ->
      getChannelsToNotifyForEvent b event sourceBindings = [events.Channel event])
  /\ (events.Channel event = "" ->
      forall id,
        id ∈ getChannelsToNotifyForEvent b event sourceBindings
        <-> exists key cfg,
              getChannels b !! key = Some cfg /\ Identifier cfg = id
              /\ notify cfg = true
              /\ exists s, s ∈ sourceBindings
                           /\ s ∈ config.BotBindings_Sources (Bindings cfg))
  /\ (events.Channel event = "" ->
      forall key cfg,
        getChannels b !! key = Some cfg -> notify cfg = false ->
        getChannelsToNotifyForEvent
          (setChannels b (delete key (getChannels b))) event sourceBindings
        ≡ₚ getChannelsToNotifyForEvent b event sourceBindings).
Proof.
  assert (Hfall : forall b', events.Channel event = "" ->
            getChannelsToNotifyForEvent b' event sourceBindings
            = getChannelsToNotify b' sourceBindings).
  { intros b' Hempty. unfold getChannelsToNotifyForEvent.
    apply decide_False. intros Hne. by apply Hne. }
  assert (Hown : events.Channel event <> "" ->
            getChannelsToNotifyForEvent b event sourceBindings
            = [events.Channel event]).
  { intros Hset. unfold getChannelsToNotifyForEvent. by apply decide_True. }
  split; [|split; [done|split]].
  - unfold Targets_reference.
    destruct (decide (events.Channel event = "")) as [Hempty|Hset].
    + rewrite Hfall by done. apply getChannelsToNotify_filter.
    + by apply Hown.
  - intros Hempty id. rewrite Hfall by done. apply elem_of_getChannelsToNotify.
  - intros Hempty key cfg Hlook Hoff. rewrite !Hfall by done.
    by eapply getChannelsToNotify_skips_disabled.
Qed.

(** The routing example of the specification: channel A notifies and is
    bound to "k8s-events", channel B is bound to it too but has its
    notifications off; an event of that source with no channel of its own
    goes to A alone, and one addressed to X goes to X alone. *)
Example routing_example :
  let A := {| Name := "A"; alias := "";
              Bindings := {| config.BotBindings_Sources := ["k8s-events"];
                             config.BotBindings_Executors := [] |};
              notify := true |} in
  let B := {| Name := "B"; alias := "";
              Bindings := {| config.BotBindings_Sources := ["k8s-events"];
                             config.BotBindings_Executors := [] |};
              notify := false |} in
  let b := {| botID := "U1"; commGroupName := "default";
              channels := <["A" := A]> (<["B" := B]> ∅) |} in
  let event channel :=
    {| events.Code := ""; events.Title := ""; events.Name := "";
       events.Namespace := ""; events.Messages := []; events.Type_ := "create";
       events.Reason := ""; events.Error := ""; events.Cluster := "";
       events.Channel := channel; events.Count := 0%Z;
       events.Event_Action := ""; events.Skip := false; events.Resource := "";
       events.Recommendations := []; events.Warnings := [];
       events.Actions := [] |} in
  getChannelsToNotifyForEvent b (event "") ["k8s-events"] = ["A"]
  /\ getChannelsToNotifyForEvent b (event "X") ["k8s-events"] = ["X"].
Proof. split; vm_compute; reflexivity. Qed.

End RouterProps.

(** ** The interactive action resolver *)
Module ResolverProps.
Import gostrings bot.

Lemma Join_concat (elems : list string) (sep : string) :
  Join elems sep = String.concat sep elems.
Proof.
  induction elems as [|e rest IH]; [done|].
  simpl. destruct rest as [|e' rest']; [done|]. by rewrite IH.
Qed.

Lemma selectedValues_app (options : list slack.OptionBlockObject)
    (items : list string) :
  selectedValues options items = items ++ (slack.Option_Value <$> options).
Proof.
  revert items. induction options as [|item rest IH]; intros items; simpl.
  - by rewrite app_nil_r.
  - by rewrite IH, <- app_assoc.
Qed.

(** C2. The resolver follows the table of the specification, one row for
    each kind of payload: a multi-select change gives the action id, a
    space and the selected values joined by commas; a single-select change
    the action id, a space and the selected value; a button click the value
    as it is; a plain-text input the block id followed at once by the quoted
    trimmed value; any other kind the value as it is, of unknown origin. *)
Theorem resolveBlockActionCommand_table (TrimSpace Quote : string -> string)
    (act : slack.BlockAction) :
  let r := resolveBlockActionCommand TrimSpace Quote act in
  (slack.Type_ act = "multi_static_select" ->
     r = (slack.ActionID act +:+ " " +:+
            String.concat "," (slack.Option_Value <$> slack.SelectedOptions act),
          command.MultiSelectValueChangeOrigin))
  /\ (slack.Type_ act = "static_select" ->
     r = (slack.ActionID act +:+ " " +:+
            slack.Option_Value (slack.SelectedOption act),
          command.SelectValueChangeOrigin))
  /\ (slack.Type_ act = "button" ->
     r = (slack.Value act, command.ButtonClickOrigin))
  /\ (slack.Type_ act = "plain_text_input" ->
     r = (slack.BlockID act +:+ Quote (TrimSpace (slack.Value act)),
          command.PlainTextInputOrigin))
  /\ (slack.Type_ act ∉
        ["multi_static_select"; "static_select"; "button"; "plain_text_input"] ->
     r = (slack.Value act, command.UnknownOrigin)).
Proof.
  cbv zeta. unfold resolveBlockActionCommand, Sprintf_s_s.
  rewrite selectedValues_app, Join_concat, app_nil_l.
  repeat split; intros Hkind.
  - by rewrite decide_True.
  - rewrite Hkind. by rewrite decide_False, decide_True.
  - rewrite Hkind. by rewrite !decide_False, decide_True by done.
  - rewrite Hkind. by rewrite !decide_False, decide_True by done.
  - rewrite !not_elem_of_cons in Hkind. destruct Hkind as (? & ? & ? & ? & _).
    by rewrite !decide_False.
Qed.

(** The resolution example of the specification: a multi-select payload
    with action id "ns" and the values "default" and "kube-system". *)
Example resolve_multi_select_example (TrimSpace Quote : string -> string) :
  resolveBlockActionCommand TrimSpace Quote
    {| slack.ActionID := "ns"; slack.BlockID := "b1";
       slack.Type_ := "multi_static_select"; slack.Value := "";
       slack.SelectedOption := {| slack.Option_Value := "" |};
       slack.SelectedOptions :=
         [ {| slack.Option_Value := "default" |};
           {| slack.Option_Value := "kube-system" |} ] |}
  = ("ns default,kube-system", command.MultiSelectValueChangeOrigin).
Proof. reflexivity. Qed.

End ResolverProps.

(** ** The delivery orchestrator *)
Module DeliveryProps.
Import bot.

Section thread_target.
Context {SectionT LabelInputT : Type}.

Local Abbreviation MsgOption := (@slack.MsgOption SectionT LabelInputT).

Lemma firstShareOption_None (shares : list (list slack.ShareFileInfo)) :
  firstShareOption (SectionT:=SectionT) (LabelInputT:=LabelInputT) shares = None
  <-> forall share, share ∈ shares -> skippedShare share.
Proof.
  induction shares as [|share rest IH]; simpl.
  { split; [|done]. intros _ share Hin. by apply elem_of_nil in Hin. }
  destruct share as [|first more].
  - rewrite IH. split.
    + intros Hrest share [->|Hin]%elem_of_cons; [done|by apply Hrest].
    + intros Hall share Hin. apply Hall. by right.
  - destruct (decide (slack.Ts first <> "")) as [Hts|Hts].
    + split; [done|]. intros Hall. exfalso. apply Hts.
      apply (Hall (first :: more)). by left.
    + apply dec_stable in Hts. rewrite IH. split.
      * intros Hrest share [->|Hin]%elem_of_cons; [done|by apply Hrest].
      * intros Hall share Hin. apply Hall. by right.
Qed.

Lemma firstShareOption_Some (shares : list (list slack.ShareFileInfo))
    (opt : MsgOption) :
  firstShareOption shares = Some opt ->
  exists i first rest,
    shares !! i = Some (first :: rest)
    /\ slack.Ts first <> ""
    /\ opt = slack.MsgOptionTS (slack.Ts first)
    /\ forall j share, j < i -> shares !! j = Some share -> skippedShare share.
Proof.
  induction shares as [|share tail IH]; simpl; [done|].
  assert (Hskip : skippedShare share -> firstShareOption tail = Some opt ->
    exists i first rest,
      (share :: tail) !! i = Some (first :: rest)
      /\ slack.Ts first <> ""
      /\ opt = slack.MsgOptionTS (slack.Ts first)
      /\ forall j s, j < i -> (share :: tail) !! j = Some s -> skippedShare s).
  { intros Hsk Htail. destruct (IH Htail) as (i & first & rest & Hi & Hts & -> & Hbefore).
    exists (S i), first, rest. repeat split; try done.
    intros [|j] s Hlt Hj; simpl in Hj.
    - by injection Hj as <-.
    - apply (Hbefore j); [lia|done]. }
  destruct share as [|first more]; [by apply Hskip|].
  destruct (decide (slack.Ts first <> "")) as [Hts|Hts].
  - intros [= <-]. exists 0, first, more. repeat split; try done.
    intros j s Hlt. lia.
  - apply Hskip. simpl. by apply dec_stable in Hts.
Qed.

(** C9, as amended. A non-empty thread timestamp of the originating message
    is the target. Otherwise, with no file there is no target; with a file,
    the target is the timestamp of the first entry of a public share of the
    file: the first share, in the order the shares are ranged over, that is
    non-empty and whose first entry has a non-empty timestamp. The later
    entries of a share are not looked at, and when every share is passed
    over no target is set. *)
Theorem getThreadOptionIfNeeded_priority (event : socketSlackMessage)
    (file : option slack.File) :
  (ThreadTimeStamp event <> "" ->
     getThreadOptionIfNeeded event file
     = Some (slack.MsgOptionTS (SectionT:=SectionT) (LabelInputT:=LabelInputT)
               (ThreadTimeStamp event)))
  /\ (ThreadTimeStamp event = "" -> file = None ->
     getThreadOptionIfNeeded (SectionT:=SectionT) (LabelInputT:=LabelInputT)
       event file = None)
  /\ (ThreadTimeStamp event = "" -> forall f, file = Some f ->
     let shares := (map_to_list (slack.Shares_Public f)).*2 in
     match getThreadOptionIfNeeded (SectionT:=SectionT) (LabelInputT:=LabelInputT)
             event file with
     | Some opt =>
         exists i channel first rest,
           slack.Shares_Public f !! channel = Some (first :: rest)
           /\ shares !! i = Some (first :: rest)
           /\ slack.Ts first <> ""
           /\ opt = slack.MsgOptionTS (slack.Ts first)
           /\ forall j share, j < i -> shares !! j = Some share ->
                skippedShare share
     | None =>
         forall channel share,
           slack.Shares_Public f !! channel = Some share -> skippedShare share
     end).
Proof.
  unfold getThreadOptionIfNeeded. repeat split.
  - intros Hts. by rewrite decide_True.
  - intros Hts ->. rewrite decide_False; [done|]. intros Hne. by apply Hne.
  - intros Hts f ->. cbv zeta.
    rewrite decide_False by (intros Hne; by apply Hne).
    destruct (firstShareOption _) as [opt|] eqn:Hfirst.
    + apply firstShareOption_Some in Hfirst
        as (i & first & rest & Hi & Hne & -> & Hbefore).
      assert (Hin : (first :: rest) ∈ (map_to_list (slack.Shares_Public f)).*2).
      { apply list_elem_of_lookup. eauto. }
      apply list_elem_of_fmap in Hin as ([channel share] & Heq & Hin).
      simpl in Heq. subst share. apply elem_of_map_to_list in Hin.
      exists i, channel, first, rest. done.
    + intros channel share Hlook.
      eapply firstShareOption_None; [exact Hfirst|].
      apply list_elem_of_fmap. exists (channel, share). split; [done|].
      by apply elem_of_map_to_list.
Qed.

End thread_target.

(** C9, as stated, fails: the file below was shared twice in channel C1 and
    its second share has a timestamp, yet no thread target is set, because
    only the first entry of a share list is looked at. *)
Lemma getThreadOptionIfNeeded_ignores_later_shares :
  ~ (forall (event : socketSlackMessage) (file : slack.File),
       ThreadTimeStamp event = "" ->
       (exists channel shares share,
          slack.Shares_Public file !! channel = Some shares
          /\ share ∈ shares /\ slack.Ts share <> "") ->
       exists ts,
         getThreadOptionIfNeeded (SectionT:=unit) (LabelInputT:=unit)
           event (Some file)
         = Some (slack.MsgOptionTS ts)).
Proof.
  intros Hclaim.
  pose (event := {| Text := "list pods"; Channel := "C1"; ThreadTimeStamp := "";
                    User := "U1"; TriggerID := "";
                    CommandOrigin := command.TypedOrigin; ResponseURL := "";
                    BlockID := "" |}).
  pose (file := {| slack.Shares_Public :=
                     {[ "C1" := [ {| slack.Ts := "" |};
                                  {| slack.Ts := "1666000000.000200" |} ] ]} |}).
  destruct (Hclaim event file) as [ts Hts]; [done| |].
  - exists "C1", [ {| slack.Ts := "" |}; {| slack.Ts := "1666000000.000200" |} ],
      {| slack.Ts := "1666000000.000200" |}.
    split; [apply lookup_singleton_eq|]. split; [|done].
    apply elem_of_cons. right. apply elem_of_cons. by left.
  - vm_compute in Hts. discriminate Hts.
Qed.

Section upload_fallback.
Context {SectionT LabelInputT : Type}.

Local Abbreviation Message := (@interactive.Message SectionT LabelInputT).

Variable RenderMessage : Message -> string.
Variable slackMaxMessageSize : nat.
Variable client : Client (SectionT:=SectionT) (LabelInputT:=LabelInputT).

(** [sendRendered] makes one call, never an upload, and that call shows the
    message it was given. *)
Lemma sendRendered_delivers (event : socketSlackMessage) (resp : Message)
    (file : option slack.File) :
  exists call,
    (sendRendered client event resp file).1 = [call]
    /\ isUpload call = false
    /\ deliveredMessage call = Some resp.
Proof.
  unfold sendRendered. case_decide.
  - eexists. repeat split.
  - destruct (getThreadOptionIfNeeded event file); case_decide;
      destruct (interactive.OnlyVisibleForYou resp);
      eexists; repeat split.
Qed.

(** A message with no kind, flag or section is posted with the normal
    broadcast call, its only possible further option being the thread. *)
Lemma sendRendered_plain (event : socketSlackMessage) (resp : Message)
    (file : option slack.File) :
  interactive.Type_ resp = interactive.Default ->
  interactive.OnlyVisibleForYou resp = false ->
  interactive.ReplaceOriginal resp = false ->
  exists options,
    (sendRendered client event resp file).1
    = [CallPostMessage (Channel event)
         (slack.RenderInteractiveMessage resp :: options)]
    /\ forall o, o ∈ options -> exists ts, o = slack.MsgOptionTS ts.
Proof.
  intros Hkind Hvisible Hreplace. unfold sendRendered.
  rewrite decide_False by (rewrite Hkind; intros [? _]; done).
  rewrite (decide_False (P := _ /\ _)) by (rewrite Hreplace; intros [? _]; done).
  rewrite Hvisible. unfold getThreadOptionIfNeeded.
  destruct (decide (ThreadTimeStamp event <> "")).
  { eexists [_]. split; [done|]. intros o ->%list_elem_of_singleton. eauto. }
  destruct file as [f|].
  - destruct (firstShareOption _) as [opt|] eqn:Hfirst.
    + apply firstShareOption_Some in Hfirst as (? & first & ? & _ & _ & -> & _).
      eexists [_]. split; [done|]. intros o ->%list_elem_of_singleton. eauto.
    + exists []. split; [done|]. intros o Hin. by apply elem_of_nil in Hin.
  - exists []. split; [done|]. intros o Hin. by apply elem_of_nil in Hin.
Qed.

(** C8, as amended. For a response whose rendering is not empty: when the
    rendering is at least [slackMaxMessageSize] long, so also when it is
    exactly that long, [send] first uploads the response as a file; if the
    upload fails its error is returned and nothing is posted; if it
    succeeds, the message then posted with the normal call keeps the
    plain-text inputs of the response and nothing else of it. When the
    rendering is shorter than [slackMaxMessageSize] no file is uploaded and
    the one call made shows the response with all its elements. *)
Theorem send_upload_fallback (event : socketSlackMessage) (resp : Message) :
  String.length (RenderMessage resp) <> 0 ->
  let r := send RenderMessage slackMaxMessageSize client event resp in
  let upload := CallUploadFile (Channel event) resp (ThreadTimeStamp event) in
  (slackMaxMessageSize <= String.length (RenderMessage resp) ->
     (forall file,
        uploadFileToSlack client (Channel event) resp (ThreadTimeStamp event)
        = (file, None) ->
        exists options,
          r.1 = [upload;
                 CallPostMessage (Channel event)
                   (slack.RenderInteractiveMessage
                      {| interactive.Type_ := interactive.Default;
                         interactive.Sections := [];
                         interactive.PlaintextInputs :=
                           interactive.PlaintextInputs resp;
                         interactive.OnlyVisibleForYou := false;
                         interactive.ReplaceOriginal := false |}
                    :: options)]
          /\ forall o, o ∈ options -> exists ts, o = slack.MsgOptionTS ts)
     /\ (forall file err,
        uploadFileToSlack client (Channel event) resp (ThreadTimeStamp event)
        = (file, Some err) ->
        r = ([upload], Some err)))
  /\ (String.length (RenderMessage resp) < slackMaxMessageSize ->
     exists call,
       r.1 = [call] /\ isUpload call = false /\ deliveredMessage call = Some resp).
Proof.
  intros Hnonempty. cbv zeta. unfold send.
  rewrite decide_False by done. split.
  - intros Hlong. rewrite decide_True by done. split.
    + intros file ->.
      edestruct sendRendered_plain as (options & -> & Hoptions);
        [done..|]. by exists options.
    + by intros file err ->.
  - intros Hshort. rewrite decide_False by lia. apply sendRendered_delivers.
Qed.

End upload_fallback.

(** A client whose every call succeeds; the upload hands back no file. *)
Example send_example :
  let client :=
    {| uploadFileToSlack := fun _ _ _ => (None, None);
       OpenView := fun _ _ => None;
       PostEphemeral := fun _ _ _ => None;
       PostMessage := fun _ _ => None |} in
  let event :=
    {| Text := "get pods"; Channel := "C1"; ThreadTimeStamp := "";
       User := "U1"; TriggerID := ""; CommandOrigin := command.TypedOrigin;
       ResponseURL := ""; BlockID := "" |} in
  let resp :=
    {| interactive.Type_ := interactive.Default;
       interactive.Sections := [tt];
       interactive.PlaintextInputs := [tt; tt];
       interactive.OnlyVisibleForYou := true;
       interactive.ReplaceOriginal := false |} in
  let stripped :=
    {| interactive.Type_ := interactive.Default;
       interactive.Sections := [];
       interactive.PlaintextInputs := [tt; tt];
       interactive.OnlyVisibleForYou := false;
       interactive.ReplaceOriginal := false |} in
  send (fun _ => "abc") 3 client event resp
  = ([CallUploadFile "C1" resp "";
      CallPostMessage "C1" [slack.RenderInteractiveMessage stripped]], None)
  /\ send (fun _ => "abc") 4 client event resp
    = ([CallPostEphemeral "C1" "U1" [slack.RenderInteractiveMessage resp]], None).
Proof. split; reflexivity. Qed.

(** The witness of C8 as amended: a rendering of three bytes against a
    maximum of three is uploaded, and the message posted after it keeps the
    plain-text input alone. *)
Lemma send_upload_fallback_witness :
  let client :=
    {| uploadFileToSlack := fun _ _ _ => (None, None);
       OpenView := fun _ _ => None;
       PostEphemeral := fun _ _ _ => None;
       PostMessage := fun _ _ => None |} in
  let event :=
    {| Text := "get pods"; Channel := "C1"; ThreadTimeStamp := "";
       User := "U1"; TriggerID := ""; CommandOrigin := command.TypedOrigin;
       ResponseURL := ""; BlockID := "" |} in
  let resp : @interactive.Message unit unit :=
    {| interactive.Type_ := interactive.Popup;
       interactive.Sections := [tt];
       interactive.PlaintextInputs := [tt];
       interactive.OnlyVisibleForYou := true;
       interactive.ReplaceOriginal := true |} in
  String.length "abc" <> 0
  /\ exists options,
      (send (fun _ => "abc") 3 client event resp).1
      = [CallUploadFile "C1" resp "";
         CallPostMessage "C1"
           (slack.RenderInteractiveMessage
              {| interactive.Type_ := interactive.Default;
                 interactive.Sections := [];
                 interactive.PlaintextInputs := [tt];
                 interactive.OnlyVisibleForYou := false;
                 interactive.ReplaceOriginal := false |}
            :: options)]
      /\ forall o, o ∈ options -> exists ts, o = slack.MsgOptionTS ts.
Proof.
  cbv zeta.
  assert (Hnonempty : String.length "abc" <> 0) by (simpl; lia).
  split; [exact Hnonempty|].
  refine (proj1 (proj1
    (send_upload_fallback (fun _ => "abc") 3 _ _ _ Hnonempty) _) None _).
  - simpl. lia.
  - reflexivity.
Defined.

(** C8, as stated, fails at the boundary: a rendering exactly as long as the
    maximum does not exceed it, yet [send] uploads it as a file. *)
Lemma send_uploads_at_the_maximum :
  ~ (forall (RenderMessage : @interactive.Message unit unit -> string)
            (slackMaxMessageSize : nat) (client : Client)
            (event : socketSlackMessage) (resp : interactive.Message),
       String.length (RenderMessage resp) <> 0 ->
       String.length (RenderMessage resp) <= slackMaxMessageSize ->
       forall call,
         call ∈ (send RenderMessage slackMaxMessageSize client event resp).1 ->
         isUpload call = false).
Proof.
  intros Hclaim.
  pose (client :=
    {| uploadFileToSlack := fun _ (_ : @interactive.Message unit unit) _ =>
                              (None, None);
       OpenView := fun _ _ => None;
       PostEphemeral := fun _ _ _ => None;
       PostMessage := fun _ _ => None |}).
  pose (event :=
    {| Text := "get pods"; Channel := "C1"; ThreadTimeStamp := "";
       User := "U1"; TriggerID := ""; CommandOrigin := command.TypedOrigin;
       ResponseURL := ""; BlockID := "" |}).
  pose (resp :=
    {| interactive.Type_ := interactive.Default;
       interactive.Sections := [tt];
       interactive.PlaintextInputs := [tt];
       interactive.OnlyVisibleForYou := false;
       interactive.ReplaceOriginal := false |}).
  specialize (Hclaim (fun _ => "abc") 3 client event resp).
  simpl in Hclaim.
  specialize (Hclaim ltac:(lia) ltac:(lia) (CallUploadFile "C1" resp "")).
  discriminate Hclaim. by left.
Qed.

End DeliveryProps.

(** ** The binding validator *)
Module ValidatorProps.
Import gostrings config.

#[local] Arguments ReportError : simpl never.
#[local] Arguments reportedField : simpl never.

(** *** The field name an error gives back *)

Lemma length_append (a b : string) :
  String.length (a +:+ b) = String.length a + String.length b.
Proof. induction a as [|c a IH]; simpl; [done|]. by rewrite IH. Qed.

Lemma dropBytes_append (a b : string) (k : nat) :
  dropBytes (String.length a + k) (a +:+ b) = dropBytes k b.
Proof. induction a as [|c a IH]; simpl; done. Qed.

Lemma dropBytes_length (n : nat) (s : string) :
  String.length (dropBytes n s) = String.length s - n.
Proof.
  revert s. induction n as [|n IH]; intros s; simpl; [lia|].
  destruct s as [|c s]; simpl; [done|]. apply IH.
Qed.

Lemma lastBytes_append (a b : string) (n : nat) :
  n <= String.length b -> lastBytes n (a +:+ b) = lastBytes n b.
Proof.
  intros Hn. unfold lastBytes. rewrite length_append.
  replace (String.length a + String.length b - n)
    with (String.length a + (String.length b - n)) by lia.
  apply dropBytes_append.
Qed.

Lemma lastBytes_all (s : string) : lastBytes (String.length s) s = s.
Proof. unfold lastBytes. by rewrite Nat.sub_diag. Qed.

(** The field an error gives back is made of the last bytes of the field
    name, as many as the length of the name modulo 256. *)
Lemma reportedField_suffix (ns fieldName : string) :
  reportedField ns fieldName
  = lastBytes (String.length fieldName mod 256) fieldName.
Proof.
  unfold reportedField, uint8. apply lastBytes_append.
  apply Nat.Div0.mod_le.
Qed.

Lemma reportedField_length (ns fieldName : string) :
  String.length (reportedField ns fieldName) = String.length fieldName mod 256.
Proof.
  rewrite reportedField_suffix. unfold lastBytes. rewrite dropBytes_length.
  pose proof (Nat.Div0.mod_le (String.length fieldName) 256). lia.
Qed.

(** A field name shorter than 256 bytes is given back whole. *)
Lemma reportedField_short (ns fieldName : string) :
  String.length fieldName < 256 -> reportedField ns fieldName = fieldName.
Proof.
  intros Hshort. rewrite reportedField_suffix, Nat.mod_small by done.
  apply lastBytes_all.
Qed.

Ltac short_fields := rewrite ?reportedField_short by (cbn; lia).

Section validator_props.
Context {Sources Executors : Type}.
Variable AllNamespaceIndicator : string.
Variable defaultTranslation : FieldError -> string.

Local Abbreviation Config := (@config.Config Sources Executors).
Local Abbreviation TopValue := (@config.TopValue Sources Executors).
Local Abbreviation StructLevel := (@config.StructLevel Sources Executors).

Lemma reported_nil (sl : StructLevel) : reported sl [] = sl.
Proof. destruct sl. unfold reported. simpl. by rewrite app_nil_r. Qed.

Lemma reported_reported (sl : StructLevel) (new more : list FieldError) :
  reported (reported sl new) more = reported sl (new ++ more).
Proof. unfold reported. simpl. by rewrite app_assoc. Qed.

(** A call of [ReportError] that names the field once, as every call of the
    package does. *)
Lemma ReportError_reported (sl : StructLevel) (fieldName tag param : string) :
  ReportError sl fieldName fieldName tag param
  = reported sl [ {| StructNamespace := sl_ns sl +:+ fieldName;
                     Field := reportedField (sl_ns sl) fieldName;
                     Tag := tag; Param := param |} ].
Proof.
  unfold ReportError, reported. cbv zeta.
  destruct (decide (String.length fieldName = 0)); simpl;
    by rewrite decide_False by (intros Hne; by apply Hne).
Qed.

Lemma missingBindings_cons (ns param name : string) (defined : gset string)
    (bindings : list string) :
  missingBindings ns defined param (name :: bindings)
  = (if decide (name ∈ defined) then [] else [missingBinding ns param name])
    ++ missingBindings ns defined param bindings.
Proof.
  unfold missingBindings. destruct (decide (name ∈ defined)).
  - by rewrite filter_cons_False by (intros Hnot; by apply Hnot).
  - by rewrite filter_cons_True.
Qed.

Lemma validateSourceBindings_reported (sl : StructLevel)
    (sources : gmap string Sources) (bindings : list string) :
  validateSourceBindings sl sources bindings
  = reported sl (missingBindings (sl_ns sl) (dom sources) "Config.Sources" bindings).
Proof.
  revert sl. induction bindings as [|source rest IH]; intros sl; simpl.
  { by rewrite reported_nil. }
  rewrite IH, missingBindings_cons.
  destruct (sources !! source) as [x|] eqn:Hlook.
  - rewrite decide_True by (apply elem_of_dom; eauto). done.
  - rewrite decide_False by (by apply not_elem_of_dom).
    by rewrite ReportError_reported, reported_reported.
Qed.

Lemma validateExecutorBindings_reported (sl : StructLevel)
    (executors : gmap string Executors) (bindings : list string) :
  validateExecutorBindings sl executors bindings
  = reported sl
      (missingBindings (sl_ns sl) (dom executors) "Config.Executors" bindings).
Proof.
  revert sl. induction bindings as [|executor rest IH]; intros sl; simpl.
  { by rewrite reported_nil. }
  rewrite IH, missingBindings_cons.
  destruct (executors !! executor) as [x|] eqn:Hlook.
  - rewrite decide_True by (apply elem_of_dom; eauto). done.
  - rewrite decide_False by (by apply not_elem_of_dom).
    by rewrite ReportError_reported, reported_reported.
Qed.

Lemma foundAllNamespaceIndicator_elem_of (include : list string) :
  foundAllNamespaceIndicator AllNamespaceIndicator include = true
  <-> AllNamespaceIndicator ∈ include.
Proof.
  induction include as [|name rest IH]; simpl.
  { split; [done|]. intros Hin. by apply elem_of_nil in Hin. }
  destruct (decide (name = AllNamespaceIndicator)) as [->|Hne].
  - split; [|done]. intros _. by left.
  - rewrite IH. split; [by right|].
    intros [Heq|Hin]%elem_of_cons; [congruence|done].
Qed.

Lemma filter_missingBindings_same (ns param : string) (defined : gset string)
    (bindings : list string) :
  filter (fun e => Tag e = invalidBindingTag)
    (missingBindings ns defined param bindings)
  = missingBindings ns defined param bindings.
Proof.
  unfold missingBindings.
  induction (filter (fun name => name ∉ defined) bindings) as [|name rest IH];
    [done|].
  rewrite fmap_cons, filter_cons_True by done. by rewrite IH.
Qed.

Lemma filter_missingBindings_other (tag ns param : string)
    (defined : gset string) (bindings : list string) :
  tag <> invalidBindingTag ->
  filter (fun e => Tag e = tag) (missingBindings ns defined param bindings) = [].
Proof.
  intros Hne. unfold missingBindings.
  induction (filter (fun name => name ∉ defined) bindings) as [|name rest IH];
    [done|].
  rewrite fmap_cons, filter_cons_False; [done|]. simpl. congruence.
Qed.

(** The errors a struct adds do not depend on the errors reported before. *)
Lemma visit_app (top : TopValue) (errs : list FieldError)
    (v : string * StructValue) :
  visit AllNamespaceIndicator top errs v
  = errs ++ visit AllNamespaceIndicator top [] v.
Proof.
  destruct v as [ns current]. unfold visit, registeredValidation. simpl.
  destruct current as [slack|slack|namespaces|bindings|bindings|bindings].
  - unfold slackStructTokenValidator. simpl.
    destruct (Slack_Enabled slack); simpl; [|by rewrite app_nil_r].
    repeat (case_decide || case_match); simpl; by rewrite ?app_nil_r.
  - unfold socketSlackStructTokenValidator. simpl.
    destruct (SocketSlack_Enabled slack); simpl; [|by rewrite app_nil_r].
    destruct (decide (SocketSlack_AppToken slack = ""));
      destruct (decide (SocketSlack_BotToken slack = ""));
      destruct (HasPrefix (SocketSlack_BotToken slack) botTokenPrefix);
      destruct (HasPrefix (SocketSlack_AppToken slack) appTokenPrefix);
      simpl; by rewrite <- ?app_assoc, ?app_nil_r.
  - unfold namespacesStructValidator. simpl.
    repeat (case_decide || case_match); simpl; by rewrite ?app_nil_r.
  - unfold botBindingsStructValidator. simpl.
    destruct top as [conf|nested]; simpl; [|by rewrite app_nil_r].
    rewrite !validateSourceBindings_reported, !validateExecutorBindings_reported.
    simpl. by rewrite app_assoc.
  - unfold actionBindingsStructValidator. simpl.
    destruct top as [conf|nested]; simpl; [|by rewrite app_nil_r].
    rewrite !validateSourceBindings_reported, !validateExecutorBindings_reported.
    simpl. by rewrite app_assoc.
  - unfold sinkBindingsStructValidator. simpl.
    destruct top as [conf|nested]; simpl; [|by rewrite app_nil_r].
    by rewrite !validateSourceBindings_reported.
Qed.

Lemma foldl_visit (top : TopValue) (errs : list FieldError)
    (nested : list (string * StructValue)) :
  foldl (visit AllNamespaceIndicator top) errs nested
  = errs ++ flat_map (visit AllNamespaceIndicator top []) nested.
Proof.
  revert errs. induction nested as [|v rest IH]; intros errs; simpl.
  - by rewrite app_nil_r.
  - by rewrite IH, visit_app, app_assoc.
Qed.

(** Validation does not short-circuit: the errors of [validate.Struct] are
    those of every nested struct, one struct after the other. *)
Lemma Struct_flat_map (top : TopValue) :
  Struct AllNamespaceIndicator top
  = flat_map (visit AllNamespaceIndicator top []) (nestedOf top).
Proof. unfold Struct. by rewrite foldl_visit. Qed.

Lemma filter_flat_map {A B : Type} (P : B -> Prop) `{forall x, Decision (P x)}
    (f g : A -> list B) (l : list A) :
  (forall x, x ∈ l -> filter P (f x) = g x) ->
  filter P (flat_map f l) = flat_map g l.
Proof.
  induction l as [|x rest IH]; intros Hfg; simpl; [done|].
  rewrite filter_app, Hfg by (by left). f_equal. apply IH.
  intros y Hy. apply Hfg. by right.
Qed.

Lemma filter_sublist_impl {A : Type} (P Q : A -> Prop)
    `{forall x, Decision (P x)} `{forall x, Decision (Q x)} (l : list A) :
  (forall x, P x -> Q x) -> filter P l `sublist_of` filter Q l.
Proof.
  intros Himpl. induction l as [|x rest IH]; [done|].
  destruct (decide (P x)) as [HP|HP].
  - rewrite !filter_cons_True by auto. by apply sublist_skip.
  - rewrite (filter_cons_False P) by done.
    destruct (decide (Q x)) as [HQ|HQ].
    + rewrite filter_cons_True by done. by apply sublist_cons.
    + by rewrite filter_cons_False by done.
Qed.

Ltac drop_other_tags :=
  rewrite ?ReportError_reported; simpl;
  repeat (rewrite filter_cons_False
            by (simpl; unfold invalidBindingTag, nsIncludeTag; discriminate));
  rewrite ?filter_nil.

(** The [invalid_binding] errors a nested struct adds are the expected ones. *)
Lemma visit_invalid_binding (conf : Config) (v : string * StructValue) :
  filter (fun e => Tag e = invalidBindingTag)
    (visit AllNamespaceIndicator (TopConfig conf) [] v)
  = bindingViolations conf v.
Proof.
  destruct v as [ns current].
  unfold visit, registeredValidation, bindingViolations. simpl.
  destruct current as [slack|slack|namespaces|bindings|bindings|bindings].
  - unfold slackStructTokenValidator. simpl.
    destruct (Slack_Enabled slack); simpl; [|done].
    repeat (case_decide || case_match); by drop_other_tags.
  - unfold socketSlackStructTokenValidator. simpl.
    destruct (SocketSlack_Enabled slack); simpl; [|done].
    destruct (decide (SocketSlack_AppToken slack = ""));
      destruct (decide (SocketSlack_BotToken slack = ""));
      destruct (HasPrefix (SocketSlack_BotToken slack) botTokenPrefix);
      destruct (HasPrefix (SocketSlack_AppToken slack) appTokenPrefix);
      by drop_other_tags.
  - unfold namespacesStructValidator. simpl.
    repeat (case_decide || case_match); by drop_other_tags.
  - unfold botBindingsStructValidator. simpl.
    rewrite validateExecutorBindings_reported, validateSourceBindings_reported.
    simpl. by rewrite filter_app, !filter_missingBindings_same.
  - unfold actionBindingsStructValidator. simpl.
    rewrite validateExecutorBindings_reported, validateSourceBindings_reported.
    simpl. by rewrite filter_app, !filter_missingBindings_same.
  - unfold sinkBindingsStructValidator. simpl.
    rewrite validateSourceBindings_reported.
    simpl. by rewrite filter_missingBindings_same.
Qed.

(** The [ns-include-regex] errors a nested struct adds are the expected ones. *)
Lemma visit_ns_include (top : TopValue) (v : string * StructValue) :
  filter (fun e => Tag e = nsIncludeTag) (visit AllNamespaceIndicator top [] v)
  = nsIncludeViolations AllNamespaceIndicator v.
Proof.
  assert (Hother : forall ns param defined bindings,
            filter (fun e => Tag e = nsIncludeTag)
              (missingBindings ns defined param bindings) = []).
  { intros. by apply filter_missingBindings_other. }
  destruct v as [ns current].
  unfold visit, registeredValidation, nsIncludeViolations. simpl.
  destruct current as [slack|slack|namespaces|bindings|bindings|bindings].
  - unfold slackStructTokenValidator. simpl.
    destruct (Slack_Enabled slack); simpl; [|done].
    repeat (case_decide || case_match); by drop_other_tags.
  - unfold socketSlackStructTokenValidator. simpl.
    destruct (SocketSlack_Enabled slack); simpl; [|done].
    destruct (decide (SocketSlack_AppToken slack = ""));
      destruct (decide (SocketSlack_BotToken slack = ""));
      destruct (HasPrefix (SocketSlack_BotToken slack) botTokenPrefix);
      destruct (HasPrefix (SocketSlack_AppToken slack) appTokenPrefix);
      by drop_other_tags.
  - unfold namespacesStructValidator. simpl.
    destruct (decide (length (Include namespaces) < 2)) as [Hshort|Hlong].
    { rewrite decide_False by (intros [? _]; lia). done. }
    destruct (foundAllNamespaceIndicator AllNamespaceIndicator
                (Include namespaces)) eqn:Hfound.
    + apply foundAllNamespaceIndicator_elem_of in Hfound.
      rewrite decide_True by (split; [lia|done]).
      rewrite ReportError_reported. simpl. short_fields.
      by rewrite filter_cons_True.
    + rewrite decide_False; [done|]. intros [_ Hin].
      apply foundAllNamespaceIndicator_elem_of in Hin. congruence.
  - unfold botBindingsStructValidator. simpl.
    destruct top as [conf|nested]; simpl; [|done].
    rewrite validateExecutorBindings_reported, validateSourceBindings_reported.
    simpl. by rewrite filter_app, !Hother.
  - unfold actionBindingsStructValidator. simpl.
    destruct top as [conf|nested]; simpl; [|done].
    rewrite validateExecutorBindings_reported, validateSourceBindings_reported.
    simpl. by rewrite filter_app, !Hother.
  - unfold sinkBindingsStructValidator. simpl.
    destruct top as [conf|nested]; simpl; [|done].
    rewrite validateSourceBindings_reported. simpl. by rewrite Hother.
Qed.

Lemma elem_of_warnsOnlyTags (tag : string) :
  tag ∈ warnsOnlyTags <-> tag = nsIncludeTag.
Proof. unfold warnsOnlyTags. apply elem_of_singleton. Qed.

(** The loop of [ValidateStruct] sends every error to one of the two lists:
    to the warnings when its tag is [ns-include-regex], to the criticals
    otherwise, keeping the order. *)
Lemma routeErrors_filter (errs : list FieldError) (criticals warnings : list string) :
  routeErrors defaultTranslation errs
    {| Criticals := Some criticals; Warnings := Some warnings |}
  = {| Criticals :=
         Some (criticals ++
               (Errorf defaultTranslation
                <$> filter (fun e => Tag e <> nsIncludeTag) errs));
       Warnings :=
         Some (warnings ++
               (Errorf defaultTranslation
                <$> filter (fun e => Tag e = nsIncludeTag) errs)) |}.
Proof.
  revert criticals warnings.
  induction errs as [|e rest IH]; intros criticals warnings; simpl.
  { by rewrite !app_nil_r. }
  destruct (decide (Tag e ∈ warnsOnlyTags)) as [Hwarn|Hcrit].
  - apply elem_of_warnsOnlyTags in Hwarn. unfold Append. simpl. rewrite IH.
    rewrite (filter_cons_True (fun e => Tag e = nsIncludeTag)) by done.
    rewrite (filter_cons_False (fun e => Tag e <> nsIncludeTag))
      by (intros Hne; by apply Hne).
    by rewrite fmap_cons, <- app_assoc.
  - rewrite elem_of_warnsOnlyTags in Hcrit. unfold Append. simpl. rewrite IH.
    rewrite (filter_cons_False (fun e => Tag e = nsIncludeTag)) by done.
    rewrite (filter_cons_True (fun e => Tag e <> nsIncludeTag)) by done.
    by rewrite fmap_cons, <- app_assoc.
Qed.

Lemma ValidateStruct_routes (top : TopValue) :
  let errs := Struct AllNamespaceIndicator top in
  let result := ValidateStruct AllNamespaceIndicator defaultTranslation top in
  WrappedErrors (Criticals result)
  = (Errorf defaultTranslation <$> filter (fun e => Tag e <> nsIncludeTag) errs)
  /\ WrappedErrors (Warnings result)
    = (Errorf defaultTranslation <$> filter (fun e => Tag e = nsIncludeTag) errs).
Proof.
  cbv zeta. unfold ValidateStruct, validationResult.
  destruct (Struct AllNamespaceIndicator top) as [|e rest] eqn:Herrs; [done|].
  unfold New. by rewrite routeErrors_filter.
Qed.

(** Every validation error is reported once, among the criticals or among
    the warnings and never in both: the criticals are the messages of the
    errors whose tag is not [ns-include-regex], the warnings those of the
    errors whose tag is, each in the order of the errors, and the two lists
    together are as long as the list of errors. *)
Theorem ValidateStruct_routes_each_error_once (top : TopValue) :
  let errs := Struct AllNamespaceIndicator top in
  let result := ValidateStruct AllNamespaceIndicator defaultTranslation top in
  WrappedErrors (Criticals result)
  = (Errorf defaultTranslation <$> filter (fun e => Tag e <> nsIncludeTag) errs)
  /\ WrappedErrors (Warnings result)
    = (Errorf defaultTranslation <$> filter (fun e => Tag e = nsIncludeTag) errs)
  /\ length (WrappedErrors (Criticals result))
     + length (WrappedErrors (Warnings result)) = length errs.
Proof.
  cbv zeta. destruct (ValidateStruct_routes top) as [Hcrit Hwarn].
  split; [done|]. split; [done|].
  rewrite Hcrit, Hwarn, !length_fmap, Nat.add_comm, <- length_app.
  apply Permutation_length.
  apply (filter_app_complement (fun e => Tag e = nsIncludeTag)).
Qed.

(** C5, as amended. For every configuration, the errors tagged
    [invalid_binding] are, struct after struct and entry after entry, one
    for each entry of a source binding list that is not a key of
    [Config.Sources] and one for each entry of an executor binding list
    that is not a key of [Config.Executors]: one for each entry, so that a
    name a list holds twice is reported twice. An entry that is a key
    yields none, and no list is cut short. Each of them is reported among
    the criticals, which hold the messages of these errors one for one and
    in their order, and none among the warnings, which hold the
    [ns-include-regex] errors only. *)
Theorem ValidateStruct_invalid_binding (conf : Config) :
  let errs := Struct AllNamespaceIndicator (TopConfig conf) in
  let result :=
    ValidateStruct AllNamespaceIndicator defaultTranslation (TopConfig conf) in
  filter (fun e => Tag e = invalidBindingTag) errs
  = flat_map (bindingViolations conf) (Config_Nested conf)
  /\ (forall e, e ∈ flat_map (bindingViolations conf) (Config_Nested conf) ->
       Errorf defaultTranslation e ∈ WrappedErrors (Criticals result))
  /\ (Errorf defaultTranslation
      <$> flat_map (bindingViolations conf) (Config_Nested conf))
     `sublist_of` WrappedErrors (Criticals result)
  /\ WrappedErrors (Criticals result)
    = (Errorf defaultTranslation <$> filter (fun e => Tag e <> nsIncludeTag) errs)
  /\ WrappedErrors (Warnings result)
    = (Errorf defaultTranslation <$> filter (fun e => Tag e = nsIncludeTag) errs).
Proof.
  cbv zeta.
  destruct (ValidateStruct_routes (TopConfig conf)) as [Hcrit Hwarn].
  assert (Hbind : filter (fun e => Tag e = invalidBindingTag)
                    (Struct AllNamespaceIndicator (TopConfig conf))
                  = flat_map (bindingViolations conf) (Config_Nested conf)).
  { rewrite Struct_flat_map. apply filter_flat_map.
    intros v _. apply visit_invalid_binding. }
  assert (Hcritical : forall e : FieldError,
            Tag e = invalidBindingTag -> Tag e <> nsIncludeTag).
  { intros e ->. unfold invalidBindingTag, nsIncludeTag. discriminate. }
  split_and!; try done.
  - intros e He. rewrite Hcrit. apply list_elem_of_fmap_2.
    rewrite <- Hbind in He. apply list_elem_of_filter in He as [Htag Hin].
    apply list_elem_of_filter. split; [by apply Hcritical|done].
  - rewrite Hcrit, <- Hbind. apply fmap_sublist.
    by apply filter_sublist_impl.
Qed.

(** C5, as worded, does not hold: it is not so that every bound source name
    missing from [Config.Sources] has exactly one critical error. The
    bindings of a channel that list the undefined source "a" twice get the
    same critical error twice, one for each entry of the list. *)
Lemma invalid_binding_repeated_name_reported_twice :
  ~ (forall (conf : @config.Config unit unit) (ns : string)
       (bindings : BotBindings) (name : string),
       (ns, VBotBindings bindings) ∈ Config_Nested conf ->
       name ∈ BotBindings_Sources bindings ->
       Config_Sources conf !! name = None ->
       length
         (filter
            (fun msg =>
               msg = Errorf (fun _ => "") (missingBinding ns "Config.Sources" name))
            (WrappedErrors
               (Criticals (ValidateStruct ".*" (fun _ => "") (TopConfig conf)))))
       = 1).
Proof.
  intros Hclaim.
  pose (bindings :=
    {| BotBindings_Sources := ["a"; "a"]; BotBindings_Executors := [] |}).
  pose (ns := "Config.Communications[default].SocketSlack.Channels[general].Bindings.").
  specialize (Hclaim
    {| Config_Sources := ∅; Config_Executors := ∅;
       Config_Nested := [(ns, VBotBindings bindings)] |}
    ns bindings "a" (list_elem_of_here _ _) (list_elem_of_here _ _)
    (lookup_empty _)).
  vm_compute in Hclaim. discriminate Hclaim.
Qed.

(** C6. For every validated value, the errors tagged [ns-include-regex] are
    one for each [Include] list of length two or more that holds the
    all-namespaces indicator, and none for a shorter list or a list without
    the indicator; they are the warnings of the result, and no error with
    that tag is reported among the criticals. *)
Theorem ValidateStruct_ns_include (top : TopValue) :
  let errs := Struct AllNamespaceIndicator top in
  let result := ValidateStruct AllNamespaceIndicator defaultTranslation top in
  filter (fun e => Tag e = nsIncludeTag) errs
  = flat_map (nsIncludeViolations AllNamespaceIndicator) (nestedOf top)
  /\ WrappedErrors (Warnings result)
    = (Errorf defaultTranslation
       <$> flat_map (nsIncludeViolations AllNamespaceIndicator) (nestedOf top))
  /\ WrappedErrors (Criticals result)
    = (Errorf defaultTranslation <$> filter (fun e => Tag e <> nsIncludeTag) errs).
Proof.
  cbv zeta. destruct (ValidateStruct_routes top) as [Hcrit Hwarn].
  assert (Hns : filter (fun e => Tag e = nsIncludeTag)
                  (Struct AllNamespaceIndicator top)
                = flat_map (nsIncludeViolations AllNamespaceIndicator)
                    (nestedOf top)).
  { rewrite Struct_flat_map. apply filter_flat_map.
    intros v _. apply visit_ns_include. }
  repeat split; try done. by rewrite Hwarn, Hns.
Qed.

(** The three cases of C6 on one [Include] list reached under [ns]. *)
Lemma nsIncludeViolations_cases (ns : string) (namespaces : Namespaces) :
  let reports :=
    nsIncludeViolations AllNamespaceIndicator (ns, VNamespaces namespaces) in
  (2 <= length (Include namespaces) ->
   AllNamespaceIndicator ∈ Include namespaces ->
   reports = [ {| StructNamespace := ns +:+ "Include"; Field := "Include";
                  Tag := nsIncludeTag; Param := "" |} ])
  /\ (length (Include namespaces) < 2 -> reports = [])
  /\ (AllNamespaceIndicator ∉ Include namespaces -> reports = []).
Proof.
  cbv zeta. unfold nsIncludeViolations. simpl. repeat split.
  - intros Hlen Hin. by rewrite decide_True.
  - intros Hlen. rewrite decide_False; [done|]. intros [? _]. lia.
  - intros Hnot. rewrite decide_False; [done|]. by intros [_ ?].
Qed.

(** C7, the failing input. An enabled Socket Slack integration with a valid
    bot token and no app token violates one condition on one field, the app
    token, and two errors are reported for it, [required] and
    [invalid_slack_token], both among the criticals. The Slack integration
    returns after reporting [required] and reports a missing token once. *)
Theorem socketSlack_missing_app_token_reported_twice :
  let socket :=
    {| SocketSlack_Enabled := true; SocketSlack_BotToken := "xoxb-1234";
       SocketSlack_AppToken := "" |} in
  let slack := {| Slack_Enabled := true; Slack_Token := "" |} in
  let prefix := "must have the xapp- prefix. Learn more at https://botkube.io/docs/installation/socketslack/#generate-and-obtain-app-level-token" in
  let required :=
    {| StructNamespace := "Config.SocketSlack.AppToken"; Field := "AppToken";
       Tag := "required"; Param := "" |} in
  let invalid :=
    {| StructNamespace := "Config.SocketSlack.AppToken"; Field := "AppToken";
       Tag := "invalid_slack_token"; Param := prefix |} in
  let top (v : StructValue) : TopValue :=
    TopConfig {| Config_Sources := ∅; Config_Executors := ∅;
                 Config_Nested := [("Config.SocketSlack.", v)] |} in
  Struct AllNamespaceIndicator (top (VSocketSlack socket)) = [required; invalid]
  /\ WrappedErrors
       (Criticals (ValidateStruct AllNamespaceIndicator defaultTranslation
                     (top (VSocketSlack socket))))
     = [Errorf defaultTranslation required; Errorf defaultTranslation invalid]
  /\ length (Struct AllNamespaceIndicator (top (VSlack slack))) = 1.
Proof.
  cbv zeta. split; [reflexivity|]. split; [|reflexivity].
  match goal with
  | |- context [ValidateStruct _ _ ?t] =>
      destruct (ValidateStruct_routes t) as [-> _]
  end.
  reflexivity.
Qed.

End validator_props.

End ValidatorProps.

(** ** How the toggle composes, with itself, with its test double and with
       the router *)
Module ToggleProps.
Import bot.

Lemma setChannels_setChannels (b : SocketSlack)
    (m m' : gmap string channelConfigByName) :
  setChannels (setChannels b m) m' = setChannels b m'.
Proof. reflexivity. Qed.

(** The last write wins: setting the flag of a channel and then setting it
    again leaves the bot, and returns the error, of the second call alone;
    so does a call repeated. This holds for a channel that is not configured
    too, both calls failing and changing nothing. *)
Theorem SetNotificationsEnabled_last_write_wins (b : SocketSlack)
    (channelName : string) (first second : bool) :
  SetNotificationsEnabled
    (SetNotificationsEnabled b channelName first).1 channelName second
  = SetNotificationsEnabled b channelName second.
Proof.
  destruct (getChannels b !! channelName) as [channel|] eqn:Hlook.
  - rewrite (RegistryProps.SetNotificationsEnabled_present _ _ first _ Hlook).
    cbn [fst].
    match goal with
    | |- SetNotificationsEnabled (setChannels b (<[_ := ?c]> ?m)) _ _ = _ =>
        assert (Hset : getChannels (setChannels b (<[channelName := c]> m))
                       !! channelName = Some c) by apply lookup_insert_eq;
        rewrite (RegistryProps.SetNotificationsEnabled_present _ _ second _ Hset)
    end.
    rewrite (RegistryProps.SetNotificationsEnabled_present _ _ second _ Hlook).
    unfold setChannels, getChannels. cbn. by rewrite insert_insert_eq.
  - rewrite (RegistryProps.SetNotificationsEnabled_absent _ _ first Hlook).
    reflexivity.
Qed.

(** Setting the flag of a configured channel to the value it has changes
    nothing at all in the bot. *)
Theorem SetNotificationsEnabled_same_value (b : SocketSlack)
    (channelName : string) (channel : channelConfigByName) :
  getChannels b !! channelName = Some channel ->
  SetNotificationsEnabled b channelName (notify channel) = (b, None).
Proof.
  intros Hlook.
  rewrite (RegistryProps.SetNotificationsEnabled_present _ _ _ _ Hlook).
  destruct b as [id group registry], channel as [name bindings al flag].
  unfold setChannels, getChannels in *. simpl in *.
  by rewrite insert_id.
Qed.

Lemma SetNotificationsEnabled_same_value_witness :
  let general :=
    {| Name := "general"; alias := "gen"; notify := true;
       Bindings := {| config.BotBindings_Sources := ["k8s-events"];
                      config.BotBindings_Executors := [] |} |} in
  let b := {| botID := "U1"; commGroupName := "default-group";
              channels := {[ "general" := general ]} |} in
  getChannels b !! "general" = Some general
  /\ SetNotificationsEnabled b "general" true = (b, None).
Proof.
  cbv zeta.
  match goal with
  | |- ?lookup = Some ?general /\ _ =>
      assert (Hlook : lookup = Some general) by apply lookup_singleton_eq
  end.
  split; [exact Hlook|].
  exact (SetNotificationsEnabled_same_value _ _ _ Hlook).
Defined.

(** The test double stands for the bot: on the map of the notify flags of
    the registry, [fakeNotifierHandler] answers [NotificationsEnabled] as the
    bot does, fails [SetNotificationsEnabled] exactly when the bot does, and
    is left with the flags of the bot after the call. *)
Theorem fakeNotifierHandler_simulates (b : SocketSlack) (convID : string)
    (enabled : bool) :
  let f := {| execute_test.conf := notify <$> getChannels b |} in
  execute_test.NotificationsEnabled f convID = NotificationsEnabled b convID
  /\ (execute_test.SetNotificationsEnabled f convID enabled).2
     = (SetNotificationsEnabled b convID enabled).2
  /\ execute_test.conf (execute_test.SetNotificationsEnabled f convID enabled).1
     = notify <$> getChannels (SetNotificationsEnabled b convID enabled).1.
Proof.
  cbv zeta.
  unfold execute_test.NotificationsEnabled, execute_test.SetNotificationsEnabled,
    NotificationsEnabled, SetNotificationsEnabled.
  cbn [execute_test.conf]. rewrite lookup_fmap.
  destruct (getChannels b !! convID) as [channel|] eqn:Hlook; cbn.
  - repeat split. unfold getChannels. cbn. by rewrite fmap_insert.
  - done.
Qed.

(** Toggling and routing. After the flag of a configured channel is set, the
    channels notified are those the other entries of the registry select,
    together with the channel itself exactly when the flag was set to true
    and its source bindings intersect the given ones. So a channel that was
    stopped is not notified, and stopping or starting one channel changes
    nothing for the others. *)
Theorem getChannelsToNotify_after_toggle (b : SocketSlack)
    (channelName : string) (channel : channelConfigByName) (enabled : bool)
    (sourceBindings : list string) :
  getChannels b !! channelName = Some channel ->
  getChannelsToNotify
    (SetNotificationsEnabled b channelName enabled).1 sourceBindings
  ≡ₚ (if enabled &&
         sliceutil.Intersect sourceBindings
           (config.BotBindings_Sources (Bindings channel))
      then [Identifier channel] else [])
     ++ getChannelsToNotify
          (setChannels b (delete channelName (getChannels b))) sourceBindings.
Proof.
  intros Hlook.
  rewrite (RegistryProps.SetNotificationsEnabled_present _ _ _ _ Hlook).
  cbn [fst]. rewrite !RouterProps.getChannelsToNotify_filter.
  rewrite !RegistryProps.getChannels_setChannels.
  rewrite <- insert_delete_eq.
  rewrite map_to_list_insert by apply lookup_delete_eq.
  rewrite fmap_cons. cbn [snd].
  destruct enabled; cbn [andb].
  - destruct (sliceutil.Intersect sourceBindings
                (config.BotBindings_Sources (Bindings channel))) eqn:Hint.
    + rewrite filter_cons_True; [done|]. split; [done|].
      by apply RouterProps.Intersect_Exists.
    + rewrite filter_cons_False; [done|]. intros [_ Hex].
      apply RouterProps.Intersect_Exists in Hex. cbn in Hex. congruence.
  - rewrite filter_cons_False; [done|]. intros [Hon _]. done.
Qed.

Lemma getChannelsToNotify_after_toggle_witness :
  let general :=
    {| Name := "general"; alias := "gen"; notify := true;
       Bindings := {| config.BotBindings_Sources := ["k8s-events"];
                      config.BotBindings_Executors := [] |} |} in
  let b := {| botID := "U1"; commGroupName := "default-group";
              channels := {[ "general" := general ]} |} in
  getChannels b !! "general" = Some general
  /\ getChannelsToNotify (SetNotificationsEnabled b "general" false).1
       ["k8s-events"]
     ≡ₚ [] ++ getChannelsToNotify
                (setChannels b (delete "general" (getChannels b)))
                ["k8s-events"].
Proof.
  cbv zeta.
  match goal with
  | |- ?lookup = Some ?general /\ _ =>
      assert (Hlook : lookup = Some general) by apply lookup_singleton_eq
  end.
  split; [exact Hlook|].
  exact (getChannelsToNotify_after_toggle _ _ _ false ["k8s-events"] Hlook).
Defined.

(** An event that comes with no source binding notifies no channel, and a
    channel that is notified has a source binding of its own. *)
Theorem getChannelsToNotify_needs_a_binding (b : SocketSlack)
    (sourceBindings : list string) :
  getChannelsToNotify b [] = []
  /\ forall id, id ∈ getChannelsToNotify b sourceBindings ->
       sourceBindings <> []
       /\ exists key cfg,
            getChannels b !! key = Some cfg /\ Identifier cfg = id
            /\ config.BotBindings_Sources (Bindings cfg) <> [].
Proof.
  split.
  - destruct (getChannelsToNotify b []) as [|id rest] eqn:Hlist; [done|].
    assert (Hin : id ∈ getChannelsToNotify b []) by (rewrite Hlist; by left).
    apply RouterProps.elem_of_getChannelsToNotify
      in Hin as (_ & _ & _ & _ & _ & s & Hs & _).
    by apply elem_of_nil in Hs.
  - intros id Hin.
    apply RouterProps.elem_of_getChannelsToNotify
      in Hin as (key & cfg & Hlook & Hid & _ & s & Hs & Hbound).
    split.
    + intros ->. by apply elem_of_nil in Hs.
    + exists key, cfg. repeat split; try done.
      intros Hnil. rewrite Hnil in Hbound. by apply elem_of_nil in Hbound.
Qed.

End ToggleProps.

(** ** More on [send] *)
Module SendProps.
Import bot.

Section send_props.
Context {SectionT LabelInputT : Type}.

Local Abbreviation Message := (@interactive.Message SectionT LabelInputT).

Variable RenderMessage : Message -> string.
Variable slackMaxMessageSize : nat.
Variable client : Client (SectionT:=SectionT) (LabelInputT:=LabelInputT).

Lemma wrap_None (context : string) (err : option error) :
  wrap context err = None <-> err = None.
Proof. destruct err; simpl; split; done. Qed.

(** [sendRendered] makes one call and returns the answer to it, wrapped. *)
Lemma sendRendered_one_call (event : socketSlackMessage) (resp : Message)
    (file : option slack.File) :
  exists call context,
    sendRendered client event resp file
    = ([call], wrap context (answer client call))
    /\ isUpload call = false.
Proof.
  unfold sendRendered. case_decide.
  - eexists (CallOpenView _ _), _. split; reflexivity.
  - destruct (interactive.OnlyVisibleForYou resp).
    + eexists (CallPostEphemeral _ _ _), _. split; reflexivity.
    + eexists (CallPostMessage _ _), _. split; reflexivity.
Qed.

(** The calls of [send] and its result. [send] returns nil exactly when the
    rendering is not empty and the client answered nil to every call made;
    it makes two calls at most; and a call answered with an error is the
    last one: after a failed upload nothing is posted. *)
Theorem send_succeeds_iff_calls_succeed (event : socketSlackMessage)
    (resp : Message) :
  let r := send RenderMessage slackMaxMessageSize client event resp in
  (r.2 = None
   <-> String.length (RenderMessage resp) <> 0
       /\ forall call, call ∈ r.1 -> answer client call = None)
  /\ length r.1 <= 2
  /\ (forall before call after,
        r.1 = before ++ call :: after -> answer client call <> None ->
        after = [] /\ r.2 <> None).
Proof.
  cbv zeta. unfold send.
  destruct (decide (String.length (RenderMessage resp) = 0)) as [Hempty|Hfull].
  { cbn [fst snd]. split; [|split].
    - split; [done|]. by intros [? _].
    - simpl. lia.
    - intros before call after Heq. by destruct before. }
  destruct (decide (slackMaxMessageSize <= String.length (RenderMessage resp))).
  - destruct (uploadFileToSlack client (Channel event) resp
                (ThreadTimeStamp event)) as [file [err|]] eqn:Hupload.
    + cbn [fst snd]. split; [|split].
      * split; [done|]. intros [_ Hall].
        specialize (Hall _ (list_elem_of_here _ _)). simpl in Hall.
        rewrite Hupload in Hall. done.
      * simpl. lia.
      * intros before call after Heq _.
        destruct before as [|? [|? ?]]; simplify_eq/=; done.
    + match goal with
      | |- context [sendRendered client event ?stripped file] =>
          destruct (sendRendered_one_call event stripped file)
            as (call & context & -> & _)
      end.
      cbn [fst snd]. rewrite wrap_None. split; [|split].
      * split.
        -- intros Hcall. split; [done|].
           intros c [->|Hin]%elem_of_cons.
           ++ simpl. by rewrite Hupload.
           ++ by apply list_elem_of_singleton in Hin as ->.
        -- intros [_ Hall]. apply Hall. right. by left.
      * simpl. lia.
      * intros before c after Heq Hfail.
        destruct before as [|? [|? rest]]; simplify_eq/=.
        -- exfalso. apply Hfail. by rewrite Hupload.
        -- by rewrite wrap_None.
        -- by destruct rest.
  - destruct (sendRendered_one_call event resp None)
      as (call & context & -> & _).
    cbn [fst snd]. rewrite wrap_None. split; [|split].
    + split.
      * intros Hcall. split; [done|].
        intros c Hin. by apply list_elem_of_singleton in Hin as ->.
      * intros [_ Hall]. apply Hall. by left.
    + simpl. lia.
    + intros before c after Heq Hfail.
      destruct before as [|? rest]; simplify_eq/=.
      * by rewrite wrap_None.
      * by destruct rest.
Qed.

Lemma thread_option_is_TS (event : socketSlackMessage)
    (file : option slack.File) (opt : slack.MsgOption) :
  getThreadOptionIfNeeded (SectionT:=SectionT) (LabelInputT:=LabelInputT)
    event file = Some opt ->
  exists ts, opt = slack.MsgOptionTS ts.
Proof.
  unfold getThreadOptionIfNeeded. case_decide.
  - intros [= <-]. eauto.
  - destruct file as [f|]; [|done]. intros Hopt.
    apply DeliveryProps.firstShareOption_Some
      in Hopt as (? & ? & ? & _ & _ & -> & _). eauto.
Qed.

Lemma thread_option_in_thread (event : socketSlackMessage)
    (file : option slack.File) :
  ThreadTimeStamp event <> "" ->
  getThreadOptionIfNeeded (SectionT:=SectionT) (LabelInputT:=LabelInputT)
    event file = Some (slack.MsgOptionTS (ThreadTimeStamp event)).
Proof. intros Hts. unfold getThreadOptionIfNeeded. by rewrite decide_True. Qed.

(** The calls of [send], case by case. *)
Lemma send_calls (event : socketSlackMessage) (resp : Message) :
  (send RenderMessage slackMaxMessageSize client event resp).1
  = if decide (String.length (RenderMessage resp) = 0) then []
    else if decide (slackMaxMessageSize <= String.length (RenderMessage resp))
    then
      CallUploadFile (Channel event) resp (ThreadTimeStamp event)
      :: match uploadFileToSlack client (Channel event) resp
                 (ThreadTimeStamp event) with
         | (_, Some _) => []
         | (file, None) =>
             [CallPostMessage (Channel event)
                (slack.RenderInteractiveMessage
                   {| interactive.Type_ := interactive.Default;
                      interactive.Sections := [];
                      interactive.PlaintextInputs :=
                        interactive.PlaintextInputs resp;
                      interactive.OnlyVisibleForYou := false;
                      interactive.ReplaceOriginal := false |}
                 :: option_list (getThreadOptionIfNeeded event file))]
         end
    else if decide (interactive.Type_ resp = interactive.Popup
                    /\ TriggerID event <> "")
    then [CallOpenView (TriggerID event)
            {| slack.RenderModal := resp;
               slack.PrivateMetadata := Channel event |}]
    else
      let options :=
        slack.RenderInteractiveMessage resp
        :: option_list (getThreadOptionIfNeeded event None)
        ++ (if decide (interactive.ReplaceOriginal resp = true
                       /\ ResponseURL event <> "")
            then [slack.MsgOptionReplaceOriginal (ResponseURL event)]
            else []) in
      [if interactive.OnlyVisibleForYou resp
       then CallPostEphemeral (Channel event) (User event) options
       else CallPostMessage (Channel event) options].
Proof.
  unfold send, sendRendered.
  repeat (case_decide || case_match); simplify_eq/=; try done;
    repeat match goal with H : _ /\ _ |- _ => destruct H end; done.
Qed.

(** [send] stays where the message came from: every call it makes goes to
    the channel of the message (for a modal, through its private metadata),
    and when the message came from a thread, the file is uploaded to that
    thread and every post carries the option to reply in it. *)
Theorem send_stays_in_channel_and_thread (event : socketSlackMessage)
    (resp : Message) (call : Call) :
  call ∈ (send RenderMessage slackMaxMessageSize client event resp).1 ->
  match call with
  | CallUploadFile channel _ threadTs =>
      channel = Channel event /\ threadTs = ThreadTimeStamp event
  | CallOpenView _ view => slack.PrivateMetadata view = Channel event
  | CallPostEphemeral channel _ options | CallPostMessage channel options =>
      channel = Channel event
      /\ (ThreadTimeStamp event <> "" ->
          slack.MsgOptionTS (ThreadTimeStamp event) ∈ options)
  end.
Proof.
  rewrite send_calls.
  destruct (decide (String.length (RenderMessage resp) = 0));
    [by intros ?%elem_of_nil|].
  destruct (decide (slackMaxMessageSize <= String.length (RenderMessage resp))).
  - intros [->|Hin]%elem_of_cons; [done|].
    destruct (uploadFileToSlack client (Channel event) resp
                (ThreadTimeStamp event)) as [file [err|]];
      [by apply elem_of_nil in Hin|].
    apply list_elem_of_singleton in Hin as ->. split; [done|]. intros Hts.
    rewrite (thread_option_in_thread _ _ Hts). simpl.
    apply elem_of_cons. right. by left.
  - destruct (decide (interactive.Type_ resp = interactive.Popup
                      /\ TriggerID event <> "")).
    + by intros ->%list_elem_of_singleton.
    + cbv zeta. intros ->%list_elem_of_singleton.
      destruct (interactive.OnlyVisibleForYou resp);
        (split; [done|]); intros Hts;
        rewrite (thread_option_in_thread _ _ Hts); simpl;
        apply elem_of_cons; right; by left.
Qed.

(** A modal is opened for a popup only, and only when the message carries a
    trigger and the rendering is short of the maximum: a popup with no
    trigger, and a popup long enough to be uploaded, are posted in the
    channel instead. When a modal is opened it is the one call made, and
    the view shows the response and holds the channel as private metadata. *)
Theorem send_opens_modal_iff (event : socketSlackMessage) (resp : Message) :
  let r := send RenderMessage slackMaxMessageSize client event resp in
  let modal :=
    CallOpenView (TriggerID event)
      {| slack.RenderModal := resp; slack.PrivateMetadata := Channel event |} in
  (forall triggerID view,
     CallOpenView triggerID view ∈ r.1 ->
     r.1 = [modal]
     /\ interactive.Type_ resp = interactive.Popup
     /\ TriggerID event <> ""
     /\ 0 < String.length (RenderMessage resp) < slackMaxMessageSize)
  /\ (interactive.Type_ resp = interactive.Popup /\ TriggerID event <> ""
      /\ 0 < String.length (RenderMessage resp) < slackMaxMessageSize ->
      r.1 = [modal]).
Proof.
  cbv zeta. rewrite send_calls. split.
  - intros triggerID view.
    destruct (decide (String.length (RenderMessage resp) = 0));
      [by intros ?%elem_of_nil|].
    destruct (decide (slackMaxMessageSize <= String.length (RenderMessage resp))).
    + intros [?|Hin]%elem_of_cons; [done|].
      destruct (uploadFileToSlack client (Channel event) resp
                  (ThreadTimeStamp event)) as [file [err|]];
        [by apply elem_of_nil in Hin|].
      by apply list_elem_of_singleton in Hin.
    + destruct (decide (interactive.Type_ resp = interactive.Popup
                        /\ TriggerID event <> "")) as [[Hpopup Htrigger]|].
      * intros _. repeat split; try done; lia.
      * cbv zeta. intros Hin%list_elem_of_singleton.
        by destruct (interactive.OnlyVisibleForYou resp).
  - intros (Hpopup & Htrigger & Hlen).
    rewrite decide_False by lia. rewrite decide_False by lia.
    by rewrite decide_True.
Qed.

(** The flags of the response. A response is posted to the requesting user
    alone only when it is flagged so and is short of the maximum, and the
    option to replace the original message is given only when the response
    asks for it, the message carries a response URL and the rendering is
    short of the maximum. So a response long enough to be uploaded is posted
    in the channel as a new message, whatever its flags. For a response
    short of the maximum that opens no modal, the one call made is the
    ephemeral post exactly when the response is flagged so, and carries the
    replace option exactly when the response asks for it and the message
    has a response URL. *)
Theorem send_flags (event : socketSlackMessage) (resp : Message) :
  let r := send RenderMessage slackMaxMessageSize client event resp in
  (forall channel user options,
     CallPostEphemeral channel user options ∈ r.1 ->
     interactive.OnlyVisibleForYou resp = true
     /\ user = User event
     /\ String.length (RenderMessage resp) < slackMaxMessageSize)
  /\ (forall call responseURL,
     call ∈ r.1 ->
     slack.MsgOptionReplaceOriginal responseURL ∈ optionsOf call ->
     interactive.ReplaceOriginal resp = true
     /\ responseURL = ResponseURL event /\ responseURL <> ""
     /\ String.length (RenderMessage resp) < slackMaxMessageSize)
  /\ (0 < String.length (RenderMessage resp) < slackMaxMessageSize ->
      ~ (interactive.Type_ resp = interactive.Popup /\ TriggerID event <> "") ->
      exists call,
        r.1 = [call]
        /\ (interactive.OnlyVisibleForYou resp = true
            <-> exists options,
                  call = CallPostEphemeral (Channel event) (User event) options)
        /\ (interactive.ReplaceOriginal resp = true /\ ResponseURL event <> ""
            <-> slack.MsgOptionReplaceOriginal (ResponseURL event)
                ∈ optionsOf call)).
Proof.
  assert (Hthread : forall file url,
            slack.MsgOptionReplaceOriginal url
            ∉ option_list (getThreadOptionIfNeeded (SectionT:=SectionT)
                             (LabelInputT:=LabelInputT) event file)).
  { intros file url.
    destruct (getThreadOptionIfNeeded event file) as [opt|] eqn:Hopt; simpl.
    - apply thread_option_is_TS in Hopt as [ts ->].
      intros Hin%list_elem_of_singleton. done.
    - apply not_elem_of_nil. }
  assert (Hoptions : forall file url,
            slack.MsgOptionReplaceOriginal url
            ∈ slack.RenderInteractiveMessage resp
              :: option_list (getThreadOptionIfNeeded event file)
              ++ (if decide (interactive.ReplaceOriginal resp = true
                             /\ ResponseURL event <> "")
                  then [slack.MsgOptionReplaceOriginal (ResponseURL event)]
                  else []) ->
            interactive.ReplaceOriginal resp = true
            /\ url = ResponseURL event /\ url <> "").
  { intros file url [?|Hin]%elem_of_cons; [done|].
    apply elem_of_app in Hin as [Hin|Hin]; [by apply Hthread in Hin|].
    case_decide as Hreplace; [|by apply elem_of_nil in Hin].
    apply list_elem_of_singleton in Hin. simplify_eq.
    by destruct Hreplace. }
  cbv zeta. rewrite send_calls. split; [|split].
  - intros channel user options.
    destruct (decide (String.length (RenderMessage resp) = 0));
      [by intros ?%elem_of_nil|].
    destruct (decide (slackMaxMessageSize <= String.length (RenderMessage resp))).
    + intros [?|Hin]%elem_of_cons; [done|].
      destruct (uploadFileToSlack client (Channel event) resp
                  (ThreadTimeStamp event)) as [file [err|]];
        [by apply elem_of_nil in Hin|].
      by apply list_elem_of_singleton in Hin.
    + destruct (decide (interactive.Type_ resp = interactive.Popup
                        /\ TriggerID event <> "")).
      * by intros ?%list_elem_of_singleton.
      * cbv zeta. intros Hin%list_elem_of_singleton.
        destruct (interactive.OnlyVisibleForYou resp); [|done].
        simplify_eq. repeat split. lia.
  - intros call responseURL.
    destruct (decide (String.length (RenderMessage resp) = 0));
      [by intros ?%elem_of_nil|].
    destruct (decide (slackMaxMessageSize <= String.length (RenderMessage resp))).
    + intros [->|Hin]%elem_of_cons; [by intros ?%elem_of_nil|].
      destruct (uploadFileToSlack client (Channel event) resp
                  (ThreadTimeStamp event)) as [file [err|]];
        [by apply elem_of_nil in Hin|].
      apply list_elem_of_singleton in Hin as ->. cbn [optionsOf].
      intros [?|Hin]%elem_of_cons; [done|]. by apply Hthread in Hin.
    + destruct (decide (interactive.Type_ resp = interactive.Popup
                        /\ TriggerID event <> "")).
      * intros ->%list_elem_of_singleton. by intros ?%elem_of_nil.
      * cbv zeta. intros ->%list_elem_of_singleton.
        destruct (interactive.OnlyVisibleForYou resp); cbn [optionsOf];
          intros (? & ? & ?)%Hoptions; repeat split; try done; lia.
  - intros Hlen Hmodal.
    rewrite decide_False by lia. rewrite decide_False by lia.
    rewrite decide_False by done. cbv zeta.
    eexists. split; [reflexivity|]. split.
    + destruct (interactive.OnlyVisibleForYou resp).
      * split; [eauto|done].
      * split; [done|]. by intros [options ?].
    + split.
      * intros Hreplace.
        destruct (interactive.OnlyVisibleForYou resp); cbn [optionsOf];
          rewrite decide_True by done;
          apply elem_of_cons; right; apply elem_of_app; right; by left.
      * destruct (interactive.OnlyVisibleForYou resp); cbn [optionsOf];
          intros (? & _ & ?)%Hoptions; done.
Qed.

End send_props.

Lemma send_stays_in_channel_and_thread_witness :
  let client :=
    {| uploadFileToSlack := fun _ (_ : @interactive.Message unit unit) _ =>
                              (None, None);
       OpenView := fun _ _ => None;
       PostEphemeral := fun _ _ _ => None;
       PostMessage := fun _ _ => None |} in
  let event :=
    {| Text := "get pods"; Channel := "C1";
       ThreadTimeStamp := "1666000000.000100"; User := "U1"; TriggerID := "";
       CommandOrigin := command.TypedOrigin; ResponseURL := ""; BlockID := "" |} in
  let resp :=
    {| interactive.Type_ := interactive.Default; interactive.Sections := [tt];
       interactive.PlaintextInputs := []; interactive.OnlyVisibleForYou := false;
       interactive.ReplaceOriginal := false |} in
  let post :=
    CallPostMessage "C1"
      [slack.RenderInteractiveMessage resp;
       slack.MsgOptionTS "1666000000.000100"] in
  post ∈ (send (fun _ => "pods") 3000 client event resp).1
  /\ ("C1" = Channel event
      /\ (ThreadTimeStamp event <> "" ->
          slack.MsgOptionTS (ThreadTimeStamp event)
          ∈ [slack.RenderInteractiveMessage resp;
             slack.MsgOptionTS "1666000000.000100"])).
Proof.
  cbv zeta.
  match goal with
  | |- ?call ∈ ?calls /\ _ =>
      assert (Hin : call ∈ calls) by (vm_compute; apply list_elem_of_here)
  end.
  split; [exact Hin|].
  exact (send_stays_in_channel_and_thread _ _ _ _ _ _ Hin).
Defined.


End SendProps.

(** ** Fan-out: [SendEvent], [SendGenericMessage] and [SendMessageToAll] *)
Module FanoutProps.
Import bot.

Lemma ErrorOrNil_None (errs : list error) : ErrorOrNil errs = None <-> errs = [].
Proof. by destruct errs. Qed.

Lemma ErrorOrNil_Some (errs all : list error) :
  ErrorOrNil errs = Some all -> all = errs.
Proof. destruct errs; [done|]. by intros [= <-]. Qed.

(** The errors kept of a list of attempts: none exactly when no attempt
    failed, and as many as the attempts that failed. *)
Lemma omap_failures {A B : Type} (failure : A -> option error)
    (answer : B -> option error) (attempt : A -> B) (l : list A) :
  (forall x, is_Some (failure x) <-> is_Some (answer (attempt x))) ->
  (omap failure l = [] <-> forall y, y ∈ attempt <$> l -> answer y = None)
  /\ length (omap failure l)
     = length (filter (fun y => is_Some (answer y)) (attempt <$> l)).
Proof.
  intros Hsame. induction l as [|x rest [IHnil IHlen]].
  { split; [|done]. split; [|done]. intros _ y Hy. by apply elem_of_nil in Hy. }
  rewrite fmap_cons. cbn [omap list_omap].
  pose proof (Hsame x) as Hx.
  destruct (failure x) as [err|].
  - assert (Hfail : is_Some (answer (attempt x))) by (apply Hx; eauto).
    split.
    + split; [done|]. intros Hall.
      rewrite (Hall (attempt x)) in Hfail by (by left). by destruct Hfail.
    + rewrite filter_cons_True by done. simpl. by rewrite IHlen.
  - assert (Hok : answer (attempt x) = None).
    { destruct (answer (attempt x)) eqn:Hanswer; [|done].
      assert (is_Some (@None error)) as [? ?] by (apply Hx; eauto). done. }
    split.
    + rewrite IHnil. split.
      * intros Hrest y [->|Hy]%elem_of_cons; [done|by apply Hrest].
      * intros Hall y Hy. apply Hall. by right.
    + rewrite filter_cons_False by (rewrite Hok; by intros [? ?]). done.
Qed.

Section fanout_props.
Context {SectionT LabelInputT GenericMessage : Type}.

Local Abbreviation Message := (@interactive.Message SectionT LabelInputT).
Local Abbreviation MsgOption := (@slack.MsgOption SectionT LabelInputT).

Variable Quote : string -> string.
Variable PostMessageContext : string -> list MsgOption -> option error.
Variable RenderEventMessage : events.Event -> list SectionT -> Message.
Variable GetCommandsForEvent :
  events.Event -> list string -> list kubectl.Command * option error.
Variable EventCommandsSection : string -> list interactive.OptionItem -> SectionT.
Variable ForBot : GenericMessage -> string -> Message.
Variable RenderMessage : Message -> string.
Variable slackMaxMessageSize : nat.
Variable client : Client (SectionT:=SectionT) (LabelInputT:=LabelInputT).
Variable newUUID : nat -> string.

Lemma optionItemsLoop_app (commands : list kubectl.Command)
    (optionItems : list interactive.OptionItem) :
  optionItemsLoop commands optionItems
  = optionItems ++
    ((fun cmd => {| interactive.OptionItem_Name := kubectl.Command_Name cmd;
                    interactive.OptionItem_Value := kubectl.Command_Cmd cmd |})
     <$> commands).
Proof.
  revert optionItems.
  induction commands as [|cmd rest IH]; intros optionItems; simpl.
  - by rewrite app_nil_r.
  - by rewrite IH, <- app_assoc.
Qed.

(** The section of event commands is built exactly when the channel is a key
    of the registry, the provider answers without error for the executor
    bindings of the channel, and with one command at least; it then offers,
    under the prefix made of the bot name and " kubectl", one option for
    every command, in the order of the commands, named after the command
    and valued by it. *)
Theorem getInteractiveEventSectionIfShould_Some (b : SocketSlack)
    (event : events.Event) (channelName : string) (section : SectionT) :
  getInteractiveEventSectionIfShould GetCommandsForEvent EventCommandsSection
    b event channelName = Some section
  <-> exists channel commands,
        getChannels b !! channelName = Some channel
        /\ GetCommandsForEvent event
             (config.BotBindings_Executors (Bindings channel))
           = (commands, None)
        /\ commands <> []
        /\ section
           = EventCommandsSection (BotName b +:+ " kubectl")
               ((fun cmd =>
                   {| interactive.OptionItem_Name := kubectl.Command_Name cmd;
                      interactive.OptionItem_Value := kubectl.Command_Cmd cmd |})
                <$> commands).
Proof.
  unfold getInteractiveEventSectionIfShould.
  destruct (getChannels b !! channelName) as [channel|] eqn:Hlook.
  - destruct (GetCommandsForEvent event
                (config.BotBindings_Executors (Bindings channel)))
      as [commands [err|]] eqn:Hcommands.
    + split; [done|]. intros (c & cs & [= <-] & Hc & _). congruence.
    + rewrite optionItemsLoop_app, app_nil_l.
      destruct (decide (length commands = 0)) as [Hnone|Hsome].
      * split; [done|]. intros (c & cs & [= <-] & Hc & Hne & _).
        rewrite Hcommands in Hc. simplify_eq. by destruct cs.
      * split.
        -- intros [= <-]. exists channel, commands. repeat split; try done.
           intros ->. done.
        -- intros (c & cs & [= <-] & Hc & _ & ->).
           rewrite Hcommands in Hc. by simplify_eq.
  - split; [done|]. by intros (c & cs & ? & _).
Qed.

Lemma sendToAllLoop_spec (entries : list (string * channelConfigByName))
    (msg : Message) (errs : list error) (posts : list (string * list MsgOption)) :
  sendToAllLoop Quote PostMessageContext entries msg errs posts
  = (posts ++
       ((fun entry => (Name entry.2, [slack.RenderInteractiveMessage msg]))
        <$> entries),
     errs ++
       omap (fun entry =>
               ErrWrap ("while sending Slack message to channel "
                        +:+ Quote (Name entry.2) +:+ " (alias: "
                        +:+ Quote (alias entry.2) +:+ ")")
               <$> PostMessageContext (Name entry.2)
                     [slack.RenderInteractiveMessage msg])
            entries).
Proof.
  revert errs posts.
  induction entries as [|[key channel] rest IH]; intros errs posts; simpl.
  { by rewrite !app_nil_r. }
  destruct (PostMessageContext (Name channel)
              [slack.RenderInteractiveMessage msg]) as [err|]; simpl;
    rewrite IH, <- !app_assoc; done.
Qed.

(** [SendMessageToAll] posts the message once to every channel of the
    registry, under the name of the channel, whether the notifications of
    the channel are on or off; a post that fails does not keep the others
    from being made; and the error returned is nil exactly when every post
    succeeded, holding otherwise one error for each post that failed. *)
Theorem SendMessageToAll_posts_to_every_channel (b : SocketSlack)
    (msg : Message) :
  let r := SendMessageToAll Quote PostMessageContext b msg in
  r.1 = ((fun entry => (Name entry.2, [slack.RenderInteractiveMessage msg]))
         <$> map_to_list (getChannels b))
  /\ (forall key channel,
        getChannels b !! key = Some channel ->
        (Name channel, [slack.RenderInteractiveMessage msg]) ∈ r.1)
  /\ (r.2 = None
      <-> forall post, post ∈ r.1 -> PostMessageContext post.1 post.2 = None)
  /\ (forall errs,
        r.2 = Some errs ->
        length errs
        = length (filter (fun post => is_Some (PostMessageContext post.1 post.2))
                    r.1)).
Proof.
  cbv zeta. unfold SendMessageToAll. rewrite sendToAllLoop_spec. cbn [fst snd].
  rewrite !app_nil_l.
  match goal with
  | |- context [omap ?failure ?entries] =>
      destruct (omap_failures failure
                  (fun post : string * list MsgOption =>
                     PostMessageContext post.1 post.2)
                  (fun entry : string * channelConfigByName =>
                     (Name entry.2, [slack.RenderInteractiveMessage msg]))
                  entries) as [Hnil Hlen]
  end.
  { intros entry. simpl. by rewrite fmap_is_Some. }
  split; [done|]. split; [|split].
  - intros key channel Hlook. apply list_elem_of_fmap.
    exists (key, channel). split; [done|]. by apply elem_of_map_to_list.
  - by rewrite ErrorOrNil_None, Hnil.
  - by intros errs ->%ErrorOrNil_Some.
Qed.

Lemma sendEventLoop_spec (b : SocketSlack) (event : events.Event)
    (targets : list string) (errs : list error)
    (posts : list (string * list MsgOption)) :
  let attempt channelName :=
    (channelName,
     [slack.RenderInteractiveMessage
        (RenderEventMessage event
           (option_list
              (getInteractiveEventSectionIfShould GetCommandsForEvent
                 EventCommandsSection b event channelName)))]) in
  sendEventLoop Quote PostMessageContext RenderEventMessage GetCommandsForEvent
    EventCommandsSection b event targets errs posts
  = (posts ++ (attempt <$> targets),
     errs ++
       omap (fun channelName =>
               ErrWrap ("while posting message to channel "
                        +:+ Quote channelName)
               <$> PostMessageContext channelName (attempt channelName).2)
            targets).
Proof.
  cbv zeta. revert errs posts.
  induction targets as [|channelName rest IH]; intros errs posts; simpl.
  { by rewrite !app_nil_r. }
  destruct (getInteractiveEventSectionIfShould GetCommandsForEvent
              EventCommandsSection b event channelName) as [section|]; simpl;
    destruct (PostMessageContext channelName _) as [err|]; simpl;
    rewrite IH, <- !app_assoc; done.
Qed.

(** [SendEvent] posts the event once to every channel the router selects,
    in the order of the router, with the section of event commands of the
    channel when there is one; a post that fails does not keep the others
    from being made; the error returned is nil exactly when every post
    succeeded, holding otherwise one error for each post that failed. An
    event with a channel of its own is posted to that channel alone. *)
Theorem SendEvent_posts_once_per_target (b : SocketSlack)
    (event : events.Event) (eventSources : list string) :
  let attempt channelName :=
    (channelName,
     [slack.RenderInteractiveMessage
        (RenderEventMessage event
           (option_list
              (getInteractiveEventSectionIfShould GetCommandsForEvent
                 EventCommandsSection b event channelName)))]) in
  let r := SendEvent Quote PostMessageContext RenderEventMessage
             GetCommandsForEvent EventCommandsSection b event eventSources in
  r.1 = (attempt <$> getChannelsToNotifyForEvent b event eventSources)
  /\ (r.2 = None
      <-> forall post, post ∈ r.1 -> PostMessageContext post.1 post.2 = None)
  /\ (forall errs,
        r.2 = Some errs ->
        length errs
        = length (filter (fun post => is_Some (PostMessageContext post.1 post.2))
                    r.1))
  /\ (events.Channel event <> "" -> r.1 = [attempt (events.Channel event)]).
Proof.
  cbv zeta. unfold SendEvent.
  pose proof (sendEventLoop_spec b event
                (getChannelsToNotifyForEvent b event eventSources) [] [])
    as Hloop.
  cbv zeta in Hloop. rewrite Hloop. clear Hloop. cbn [fst snd].
  rewrite !app_nil_l.
  match goal with
  | |- context [omap ?failure ?targets] =>
      destruct (omap_failures failure
                  (fun post : string * list MsgOption =>
                     PostMessageContext post.1 post.2)
                  (fun channelName : string =>
                     (channelName,
                      [slack.RenderInteractiveMessage
                         (RenderEventMessage event
                            (option_list
                               (getInteractiveEventSectionIfShould
                                  GetCommandsForEvent EventCommandsSection
                                  b event channelName)))]))
                  targets) as [Hnil Hlen]
  end.
  { intros channelName. simpl. by rewrite fmap_is_Some. }
  split; [done|]. split; [|split].
  - by rewrite ErrorOrNil_None, Hnil.
  - by intros errs ->%ErrorOrNil_Some.
  - intros Hown. unfold getChannelsToNotifyForEvent.
    by rewrite decide_True.
Qed.

(** [send] reads the channel, the thread, the user, the trigger and the
    response URL of a message, and nothing else of it. *)
Lemma send_reads (event event' : socketSlackMessage) (resp : Message) :
  Channel event = Channel event' ->
  ThreadTimeStamp event = ThreadTimeStamp event' ->
  User event = User event' ->
  TriggerID event = TriggerID event' ->
  ResponseURL event = ResponseURL event' ->
  send RenderMessage slackMaxMessageSize client event resp
  = send RenderMessage slackMaxMessageSize client event' resp.
Proof.
  destruct event, event'. simpl. intros -> -> -> -> ->. reflexivity.
Qed.

Lemma sendGenericLoop_spec (targets : list string) (msg : Message) (n : nat)
    (errs : list error) (sends : list (string * list Call)) :
  let metadata channelName :=
    {| Text := ""; Channel := channelName; ThreadTimeStamp := ""; User := "";
       TriggerID := ""; ResponseURL := ""; BlockID := "";
       CommandOrigin := command.AutomationOrigin |} in
  sendGenericLoop Quote RenderMessage slackMaxMessageSize client newUUID
    targets msg n errs sends
  = (sends ++
       ((fun channelName =>
           (channelName,
            (send RenderMessage slackMaxMessageSize client
               (metadata channelName) msg).1))
        <$> targets),
     errs ++
       omap (fun channelName =>
               ErrWrap ("while sending Slack message to channel "
                        +:+ Quote channelName)
               <$> (send RenderMessage slackMaxMessageSize client
                      (metadata channelName) msg).2)
            targets).
Proof.
  cbv zeta. revert n errs sends.
  induction targets as [|channelName rest IH]; intros n errs sends; simpl.
  { by rewrite !app_nil_r. }
  match goal with
  | |- context [send _ _ _ ?meta msg] =>
      rewrite (send_reads meta
                 {| Text := ""; Channel := channelName; ThreadTimeStamp := "";
                    User := ""; TriggerID := ""; ResponseURL := "";
                    BlockID := "";
                    CommandOrigin := command.AutomationOrigin |} msg)
        by reflexivity
  end.
  destruct (send _ _ _ _ msg) as [calls [err|]]; simpl;
    rewrite IH, <- !app_assoc; done.
Qed.

(** [SendGenericMessage] sends the message, made for the bot, once to every
    channel the router selects for the source bindings, as a message from
    no thread, no user and no trigger; the identifier drawn for each send
    changes nothing of it. A send that fails does not keep the others from
    being made; the error returned is nil exactly when every send
    succeeded, holding otherwise one error for each send that failed; and
    no send opens a modal. *)
Theorem SendGenericMessage_sends_once_per_target (b : SocketSlack)
    (genericMsg : GenericMessage) (sourceBindings : list string) :
  let msg := ForBot genericMsg (BotName b) in
  let attempt channelName :=
    send RenderMessage slackMaxMessageSize client
      {| Text := ""; Channel := channelName; ThreadTimeStamp := ""; User := "";
         TriggerID := ""; ResponseURL := ""; BlockID := "";
         CommandOrigin := command.AutomationOrigin |} msg in
  let r := SendGenericMessage Quote ForBot RenderMessage slackMaxMessageSize
             client newUUID b genericMsg sourceBindings in
  r.1 = ((fun channelName => (channelName, (attempt channelName).1))
         <$> getChannelsToNotify b sourceBindings)
  /\ (r.2 = None
      <-> forall channelName,
            channelName ∈ getChannelsToNotify b sourceBindings ->
            (attempt channelName).2 = None)
  /\ (forall errs,
        r.2 = Some errs ->
        length errs
        = length (filter (fun channelName => is_Some (attempt channelName).2)
                    (getChannelsToNotify b sourceBindings)))
  /\ (forall channelName calls triggerID view,
        (channelName, calls) ∈ r.1 -> CallOpenView triggerID view ∉ calls).
Proof.
  cbv zeta. unfold SendGenericMessage.
  pose proof (sendGenericLoop_spec (getChannelsToNotify b sourceBindings)
                (ForBot genericMsg (BotName b)) 0 [] []) as Hloop.
  cbv zeta in Hloop. rewrite Hloop. clear Hloop. cbn [fst snd].
  rewrite !app_nil_l.
  match goal with
  | |- context [omap ?failure ?targets] =>
      destruct (omap_failures failure
                  (fun channelName : string =>
                     (send RenderMessage slackMaxMessageSize client
                        {| Text := ""; Channel := channelName;
                           ThreadTimeStamp := ""; User := ""; TriggerID := "";
                           ResponseURL := ""; BlockID := "";
                           CommandOrigin := command.AutomationOrigin |}
                        (ForBot genericMsg (BotName b))).2)
                  id targets) as [Hnil Hlen]
  end.
  { intros channelName. simpl. by rewrite fmap_is_Some. }
  rewrite list_fmap_id in Hnil, Hlen.
  split; [done|]. split; [|split].
  - by rewrite ErrorOrNil_None, Hnil.
  - by intros errs ->%ErrorOrNil_Some.
  - intros channelName calls triggerID view
      (target & [= -> ->] & _)%list_elem_of_fmap.
    rewrite SendProps.send_calls. cbn [TriggerID].
    assert (Hnot : forall calls' : list Call,
              Forall (fun call => isUpload call = true
                                  \/ deliveredMessage call <> None
                                     /\ optionsOf call <> []) calls' ->
              CallOpenView triggerID view ∉ calls').
    { intros calls' Hall Hin. rewrite Forall_forall in Hall.
      destruct (Hall _ Hin) as [?|[_ ?]]; done. }
    apply Hnot.
    destruct (decide (String.length _ = 0)); [done|].
    destruct (decide (slackMaxMessageSize <= _)).
    + destruct (uploadFileToSlack _ _ _ _) as [file [err|]].
      * repeat constructor.
      * constructor; [by left|]. constructor; [|done]. by right.
    + rewrite decide_False by (by intros [_ ?]). cbv zeta.
      constructor; [|done]. right.
      by destruct (interactive.OnlyVisibleForYou _).
Qed.

End fanout_props.

End FanoutProps.

(** ** Handling a message *)
Module HandlingProps.
Import bot.

Section handling_props.
Context {SectionT LabelInputT : Type}.

Local Abbreviation Message := (@interactive.Message SectionT LabelInputT).

Variable MatchString : string -> bool.
Variable ReplaceAllString : string -> string -> string.
Variable GetConversationInfo : string -> string * option error.
Variable Execute : execute.NewDefaultInput -> SocketSlack -> Message * SocketSlack.
Variable RenderMessage : Message -> string.
Variable slackMaxMessageSize : nat.
Variable client : Client (SectionT:=SectionT) (LabelInputT:=LabelInputT).

(** When [handleMessage] runs an executor. An executor is run exactly when
    the message mentions the bot and its conversation can be looked up.
    When none is run the bot is left as it is and nothing is sent: a
    message that does not mention the bot asks nothing of anyone and
    returns nil, and a failed lookup returns its error, wrapped. *)
Theorem handleMessage_runs_executor_iff (b : SocketSlack)
    (event : socketSlackMessage) :
  let r := handleMessage MatchString ReplaceAllString GetConversationInfo
             Execute RenderMessage slackMaxMessageSize client b event in
  ((exists input, AskExecute input ∈ r.1.2)
   <-> MatchString (Text event) = true
       /\ (GetConversationInfo (Channel event)).2 = None)
  /\ ((forall input, AskExecute input ∉ r.1.2) ->
      r.1.1 = b /\ forall call, AskClient call ∉ r.1.2)
  /\ (MatchString (Text event) = false -> r = (b, [], None))
  /\ (forall err,
        MatchString (Text event) = true ->
        (GetConversationInfo (Channel event)).2 = Some err ->
        r = (b, [AskConversationInfo (Channel event)],
             Some (ErrWrap "while getting conversation info" err))).
Proof.
  cbv zeta. unfold handleMessage, findAndTrimBotMention.
  destruct (MatchString (Text event)); cbn [negb].
  - destruct (GetConversationInfo (Channel event)) as [name [err|]];
      cbn [fst snd].
    + split_and!.
      * split; [|by intros [_ ?]].
        intros [input Hin]. by apply list_elem_of_singleton in Hin.
      * intros _. split; [done|].
        intros call Hin. by apply list_elem_of_singleton in Hin.
      * done.
      * by intros ? _ [= <-].
    + destruct (Execute _ b) as [response b'] eqn:Hrun. cbn [fst snd].
      split_and!.
      * split; [done|]. intros _. eexists. right. by left.
      * intros Hnone. exfalso. eapply Hnone. right. by left.
      * done.
      * done.
  - cbn [fst snd]. split_and!.
    + split; [|by intros [? _]]. intros [input Hin]. by apply elem_of_nil in Hin.
    + intros _. split; [done|]. intros call Hin. by apply elem_of_nil in Hin.
    + done.
    + done.
Qed.

(** A message that mentions the bot, in a conversation that can be looked
    up, runs one executor and sends its response back. The executor is
    given the message without the mention, and a conversation that is
    authenticated exactly when the name of the conversation is a key of the
    registry as it was before the executor ran: it then carries the alias,
    the identifier and the executor bindings of that channel, and otherwise
    no alias, no identifier and no executor binding. The bot is left as
    the executor left it, and the error is the one of [send], wrapped. *)
Theorem handleMessage_runs_executor (b : SocketSlack)
    (event : socketSlackMessage) (name : string) :
  MatchString (Text event) = true ->
  GetConversationInfo (Channel event) = (name, None) ->
  exists input,
    let conversation := execute.Conversation_ input in
    let sent :=
      send RenderMessage slackMaxMessageSize client event (Execute input b).1 in
    handleMessage MatchString ReplaceAllString GetConversationInfo
      Execute RenderMessage slackMaxMessageSize client b event
    = ((Execute input b).2,
       [AskConversationInfo (Channel event); AskExecute input]
         ++ (AskClient <$> sent.1),
       wrap "while sending message" sent.2)
    /\ execute.Message input = ReplaceAllString (Text event) ""
    /\ execute.User input = "<@" +:+ User event +:+ ">"
    /\ execute.CommandOrigin conversation = CommandOrigin event
    /\ (execute.IsAuthenticated conversation = true
        <-> is_Some (getChannels b !! name))
    /\ (forall channel,
          getChannels b !! name = Some channel ->
          execute.Alias conversation = alias channel
          /\ execute.ID conversation = Identifier channel
          /\ execute.ExecutorBindings conversation
             = config.BotBindings_Executors (Bindings channel))
    /\ (getChannels b !! name = None ->
          execute.Alias conversation = ""
          /\ execute.ID conversation = ""
          /\ execute.ExecutorBindings conversation = []).
Proof.
  intros Hmention Hinfo. unfold handleMessage, findAndTrimBotMention.
  rewrite Hmention, Hinfo. cbn [negb].
  match goal with
  | |- context [Execute ?input b] => exists input
  end.
  cbv zeta. split.
  { by destruct (Execute _ b) as [response b']. }
  cbn [execute.Message execute.User execute.Conversation_
       execute.CommandOrigin execute.IsAuthenticated execute.Alias execute.ID
       execute.ExecutorBindings].
  split; [done|]. split; [done|]. split; [done|]. split; [|split].
  - apply bool_decide_eq_true.
  - by intros channel ->.
  - by intros ->.
Qed.

End handling_props.

(** The witness: the bot is mentioned in the channel "general", which is
    configured with one executor binding. *)
Lemma handleMessage_runs_executor_witness :
  let general :=
    {| Name := "general"; alias := "gen"; notify := true;
       Bindings := {| config.BotBindings_Sources := [];
                      config.BotBindings_Executors := ["kubectl-read-only"] |} |} in
  let b := {| botID := "U1"; commGroupName := "default-group";
              channels := {[ "general" := general ]} |} in
  let event :=
    {| Text := "<@U1> get pods"; Channel := "C1"; ThreadTimeStamp := "";
       User := "U2"; TriggerID := ""; CommandOrigin := command.TypedOrigin;
       ResponseURL := ""; BlockID := "" |} in
  let response : @interactive.Message unit unit :=
    {| interactive.Type_ := interactive.Default; interactive.Sections := [tt];
       interactive.PlaintextInputs := []; interactive.OnlyVisibleForYou := false;
       interactive.ReplaceOriginal := false |} in
  let client :=
    {| uploadFileToSlack := fun _ (_ : @interactive.Message unit unit) _ =>
                              (None, None);
       OpenView := fun _ _ => None;
       PostEphemeral := fun _ _ _ => None;
       PostMessage := fun _ _ => None |} in
  let MatchString := String.prefix "<@U1>" in
  let GetConversationInfo := fun _ : string => ("general", @None error) in
  MatchString (Text event) = true
  /\ GetConversationInfo (Channel event) = ("general", None)
  /\ exists input,
      execute.IsAuthenticated (execute.Conversation_ input) = true
      /\ execute.ExecutorBindings (execute.Conversation_ input)
         = ["kubectl-read-only"]
      /\ (handleMessage MatchString (fun _ _ => "get pods") GetConversationInfo
            (fun _ bot => (response, bot)) (fun _ => "pods") 3000 client
            b event).1.1 = b.
Proof.
  cbv zeta.
  assert (Hmention : String.prefix "<@U1>" "<@U1> get pods" = true)
    by reflexivity.
  assert (Hinfo : (fun _ : string => ("general", @None error)) "C1"
                  = ("general", None)) by reflexivity.
  split; [exact Hmention|]. split; [exact Hinfo|].
  match goal with
  | |- context [handleMessage ?m ?r ?g ?e ?render ?max ?c ?b ?ev] =>
      destruct (handleMessage_runs_executor m r g e render max c b ev
                  "general" Hmention Hinfo)
        as (input & Hrun & _ & _ & _ & Hauth & Hchannel & _);
      assert (Hlook : exists general, getChannels b !! "general" = Some general
                        /\ config.BotBindings_Executors (Bindings general)
                           = ["kubectl-read-only"])
        by (eexists; split; [apply lookup_singleton_eq|reflexivity])
  end.
  destruct Hlook as (general & Hlook & Hexecutors).
  exists input. split; [|split].
  - apply Hauth. by exists general.
  - destruct (Hchannel _ Hlook) as (_ & _ & ->). exact Hexecutors.
  - by rewrite Hrun.
Defined.

End HandlingProps.

(** ** Interactive callbacks *)
Module InteractionProps.
Import gostrings bot.

Section interaction_props.
Variable TrimSpace : string -> string.
Variable Quote : string -> string.
Variable urlButtonActionIDPrefix : string.

(** What becomes of a block-actions callback. It is handled as a command
    exactly when it carries one action, that action is not nil, its id does
    not start with the prefix of URL buttons, and the callback has a channel
    or comes from no view; the command is then the one the resolver gives
    for the action, addressed to the channel of the callback, in the thread
    of the message the action was taken on when that message is in a
    thread and else under that message itself. An action whose id starts
    with the URL prefix is reported as a button click and never handled as
    a command, and a single nil action is dereferenced. *)
Theorem onBlockActions_reaction (callback : slack.InteractionCallback) :
  let r := onBlockActions TrimSpace Quote urlButtonActionIDPrefix callback in
  (forall msgs,
     r = Handled msgs
     <-> exists act,
           slack.Callback_BlockActions callback = [Some act]
           /\ HasPrefix (slack.ActionID act) urlButtonActionIDPrefix = false
           /\ ~ (slack.Callback_Channel_ID callback = ""
                 /\ slack.Callback_View_ID callback <> "")
           /\ msgs =
              [ {| Text := (resolveBlockActionCommand TrimSpace Quote act).1;
                   CommandOrigin :=
                     (resolveBlockActionCommand TrimSpace Quote act).2;
                   Channel := slack.Callback_Channel_ID callback;
                   ThreadTimeStamp :=
                     if decide (slack.Callback_Message_ThreadTimestamp callback
                                <> "")
                     then slack.Callback_Message_ThreadTimestamp callback
                     else slack.Callback_MessageTs callback;
                   TriggerID := slack.Callback_TriggerID callback;
                   User := slack.Callback_User_ID callback;
                   ResponseURL := slack.Callback_ResponseURL callback;
                   BlockID := slack.BlockID act |} ])
  /\ (forall actionID origin,
        r = ReportedCommand actionID origin
        <-> exists act,
              slack.Callback_BlockActions callback = [Some act]
              /\ HasPrefix (slack.ActionID act) urlButtonActionIDPrefix = true
              /\ actionID = slack.ActionID act
              /\ origin = command.ButtonClickOrigin)
  /\ (r = NilDereference <-> slack.Callback_BlockActions callback = [None])
  /\ (length (slack.Callback_BlockActions callback) <> 1 -> r = Ignored).
Proof.
  cbv zeta. unfold onBlockActions.
  destruct (slack.Callback_BlockActions callback) as [|[act|] [|second rest]];
    simpl.
  - split_and!; [intros msgs|intros actionID origin|done|done];
      (split; [done|]); by intros (? & ? & _).
  - destruct (HasPrefix (slack.ActionID act) urlButtonActionIDPrefix) eqn:Hurl.
    + split_and!; [intros msgs|intros actionID origin| |done].
      * split; [done|]. intros (? & [= <-] & ? & _). congruence.
      * split.
        -- intros [= <- <-]. by exists act.
        -- by intros (? & [= <-] & _ & -> & ->).
      * done.
    + destruct (decide (slack.Callback_Channel_ID callback = ""
                        /\ slack.Callback_View_ID callback <> ""))
        as [Hmodal|Hchannel].
      * split_and!; [intros msgs|intros actionID origin| |done].
        -- split; [done|]. by intros (? & _ & _ & ? & _).
        -- split; [done|]. intros (? & [= <-] & ? & _). congruence.
        -- done.
      * destruct (resolveBlockActionCommand TrimSpace Quote act)
          as [cmd origin'] eqn:Hresolve.
        split_and!; [intros msgs|intros actionID origin| |done].
        -- split.
           ++ intros [= <-]. exists act. by rewrite Hresolve.
           ++ intros (? & [= <-] & _ & _ & ->). by rewrite Hresolve.
        -- split; [done|]. intros (? & [= <-] & ? & _). congruence.
        -- done.
  - split_and!; [intros msgs|intros actionID origin|done|done];
      (split; [done|]); by intros (? & ? & _).
  - split_and!; [intros msgs|intros actionID origin|done|done];
      (split; [done|]); by intros (? & ? & _).
  - split_and!; [intros msgs|intros actionID origin|done|done];
      (split; [done|]); by intros (? & ? & _).
Qed.

Lemma elem_of_storedActions (values : gmap string (gmap string slack.BlockAction))
    (blockID actID : string) (act : slack.BlockAction) :
  (blockID, actID, act) ∈ storedActions values
  <-> exists item, values !! blockID = Some item /\ item !! actID = Some act.
Proof.
  unfold storedActions. rewrite list_elem_of_In, in_flat_map. split.
  - intros ([block item] & Hitem & Hin).
    apply list_elem_of_In, elem_of_map_to_list in Hitem.
    apply list_elem_of_In, list_elem_of_fmap in Hin as ([key act'] & Heq & Hact).
    apply elem_of_map_to_list in Hact. simpl in Heq. simplify_eq.
    by exists item.
  - intros (item & Hitem & Hact). exists (blockID, item). split.
    + by apply list_elem_of_In, elem_of_map_to_list.
    + apply list_elem_of_In, list_elem_of_fmap. exists (actID, act).
      split; [done|]. by apply elem_of_map_to_list.
Qed.

(** Lists made for distinct keys, each without a repetition and each
    holding only elements that carry its key, make a list without a
    repetition. *)
Lemma NoDup_flat_map_keyed {K V T : Type} (key : T -> K) (g : K * V -> list T)
    (l : list (K * V)) :
  NoDup l.*1 ->
  (forall x, NoDup (g x)) ->
  (forall x t, t ∈ g x -> key t = x.1) ->
  NoDup (flat_map g l).
Proof.
  intros Hkeys Hnodup Hkey. induction l as [|x rest IH]; simpl.
  { apply NoDup_nil_2. }
  rewrite fmap_cons in Hkeys. apply NoDup_cons in Hkeys as [Hfresh Hrest].
  apply NoDup_app. split_and!; [apply Hnodup| |by apply IH].
  intros t Ht Hin. apply Hfresh.
  apply list_elem_of_In, in_flat_map in Hin as (y & Hy & Hty).
  apply list_elem_of_In in Hy, Hty.
  rewrite <- (Hkey _ _ Ht), (Hkey _ _ Hty).
  by apply list_elem_of_fmap_2.
Qed.

Lemma NoDup_storedActions (values : gmap string (gmap string slack.BlockAction)) :
  NoDup (storedActions values).
Proof.
  unfold storedActions.
  apply (NoDup_flat_map_keyed (fun t => t.1.1)).
  - apply NoDup_fst_map_to_list.
  - intros [blockID item]. simpl. apply NoDup_fmap_2_strong.
    + intros [a x] [b y] _ _ Heq. simpl in Heq. by simplify_eq.
    + apply NoDup_map_to_list.
  - intros [blockID item] t Ht. simpl in *.
    by apply list_elem_of_fmap in Ht as (entry & -> & _).
Qed.

(** What becomes of a submitted view. A view without a state makes the loop
    dereference a nil pointer. Otherwise every action the state holds, in
    whatever input block, gives exactly one message: the messages handled
    are those of a list that holds each stored action once. A message is
    addressed to the channel kept as the private metadata of the view,
    comes from the user of the callback, and has no thread, trigger,
    response URL or block id; and its command is the one the resolver gives
    for the action once the id of the action is replaced by the key the
    action is stored under. *)
Theorem onViewSubmission_messages (callback : slack.InteractionCallback) :
  let message (stored : string * string * slack.BlockAction) :=
    let resolved :=
      resolveBlockActionCommand TrimSpace Quote
        {| slack.ActionID := stored.1.2;
           slack.BlockID := slack.BlockID stored.2;
           slack.Type_ := slack.Type_ stored.2;
           slack.Value := slack.Value stored.2;
           slack.SelectedOption := slack.SelectedOption stored.2;
           slack.SelectedOptions := slack.SelectedOptions stored.2 |} in
    {| Text := resolved.1; CommandOrigin := resolved.2;
       Channel := slack.Callback_View_PrivateMetadata callback;
       User := slack.Callback_User_ID callback;
       ThreadTimeStamp := ""; TriggerID := ""; ResponseURL := "";
       BlockID := "" |} in
  match slack.Callback_View_State callback with
  | None => onViewSubmission TrimSpace Quote callback = NilDereference
  | Some values =>
      exists actions : list (string * string * slack.BlockAction),
        NoDup actions
        /\ (forall blockID actID act,
              (blockID, actID, act) ∈ actions
              <-> exists item,
                    values !! blockID = Some item /\ item !! actID = Some act)
        /\ onViewSubmission TrimSpace Quote callback = Handled (message <$> actions)
        /\ length actions = sum_list (size <$> (map_to_list values).*2)
  end.
Proof.
  cbv zeta. unfold onViewSubmission.
  destruct (slack.Callback_View_State callback) as [values|]; [|done].
  exists (storedActions values). split_and!.
  - apply NoDup_storedActions.
  - intros blockID actID act. apply elem_of_storedActions.
  - f_equal. unfold submittedMessages, storedActions.
    induction (map_to_list values) as [|item rest IH]; [done|].
    simpl. rewrite fmap_app, IH. f_equal.
    rewrite <- list_fmap_compose. apply list_fmap_ext.
    intros i [actID act] _. unfold submittedMessage. simpl.
    by destruct (resolveBlockActionCommand _ _ _).
  - unfold storedActions.
    induction (map_to_list values) as [|item rest IH]; [done|].
    simpl. rewrite length_app, length_fmap, IH. f_equal.
    by rewrite length_map_to_list.
Qed.

End interaction_props.

End InteractionProps.

(** ** More on the validator: when a struct passes *)
Module AcceptanceProps.
Import gostrings config.

#[local] Arguments ReportError : simpl never.
#[local] Arguments reportedField : simpl never.

Ltac reports :=
  cbv zeta; rewrite ?ValidatorProps.ReportError_reported; simpl;
  rewrite ?ValidatorProps.reportedField_short by (cbn; lia).

Lemma HasPrefix_nonempty (s prefix : string) :
  prefix <> "" -> HasPrefix s prefix = true -> s <> "".
Proof.
  intros Hprefix Hhas ->. unfold HasPrefix in Hhas.
  destruct prefix; [done|]. discriminate Hhas.
Qed.

Section acceptance.
Context {Sources Executors : Type}.
Variable AllNamespaceIndicator : string.
Variable defaultTranslation : FieldError -> string.

Local Abbreviation Config := (@config.Config Sources Executors).
Local Abbreviation TopValue := (@config.TopValue Sources Executors).

(** The Slack integration passes exactly when it is disabled or its token
    starts with "xoxb-"; a disabled integration is not looked at, whatever
    its token. At most one error is reported, on the field [Token]: that it
    is required when it is empty, that it is invalid otherwise. *)
Theorem slackStructTokenValidator_passes_iff (top : TopValue) (ns : string)
    (slack : Slack) :
  let errs := visit AllNamespaceIndicator top [] (ns, VSlack slack) in
  (errs = []
   <-> Slack_Enabled slack = false
       \/ HasPrefix (Slack_Token slack) botTokenPrefix = true)
  /\ length errs <= 1
  /\ (forall e, e ∈ errs ->
        StructNamespace e = ns +:+ "Token" /\ Field e = "Token"
        /\ (Tag e = "required" /\ Slack_Token slack = ""
            \/ Tag e = "invalid_slack_token" /\ Slack_Token slack <> "")).
Proof.
  cbv zeta. unfold visit, registeredValidation, slackStructTokenValidator.
  simpl. reports. destruct (Slack_Enabled slack); simpl.
  - destruct (decide (Slack_Token slack = "")) as [Hempty|Hfull]; simpl.
    + split_and!.
      * split; [done|]. intros [?|Hprefix]; [done|].
        by apply HasPrefix_nonempty in Hprefix.
      * lia.
      * intros e ->%list_elem_of_singleton. simpl. by eauto.
    + destruct (HasPrefix (Slack_Token slack) botTokenPrefix) eqn:Hprefix; simpl.
      * split_and!; [split; [eauto|done]|lia|]. by intros e ?%elem_of_nil.
      * split_and!.
        -- split; [done|]. by intros [?|?].
        -- lia.
        -- intros e ->%list_elem_of_singleton. simpl. by eauto.
  - split_and!; [split; [eauto|done]|lia|]. by intros e ?%elem_of_nil.
Qed.

(** The Socket Slack integration passes exactly when it is disabled or its
    bot token starts with "xoxb-" and its app token with "xapp-"; every
    error it reports is on one of these two fields and says that the field
    is required or that it is invalid. *)
Theorem socketSlackStructTokenValidator_passes_iff (top : TopValue)
    (ns : string) (slack : SocketSlack) :
  let errs := visit AllNamespaceIndicator top [] (ns, VSocketSlack slack) in
  (errs = []
   <-> SocketSlack_Enabled slack = false
       \/ HasPrefix (SocketSlack_BotToken slack) botTokenPrefix = true
          /\ HasPrefix (SocketSlack_AppToken slack) appTokenPrefix = true)
  /\ (forall e, e ∈ errs ->
        (Field e = "AppToken" /\ StructNamespace e = ns +:+ "AppToken"
         \/ Field e = "BotToken" /\ StructNamespace e = ns +:+ "BotToken")
        /\ (Tag e = "required" \/ Tag e = "invalid_slack_token")).
Proof.
  cbv zeta. unfold visit, registeredValidation, socketSlackStructTokenValidator.
  simpl. reports. destruct (SocketSlack_Enabled slack); simpl;
    [|split; [split; [eauto|done]|]; by intros e ?%elem_of_nil].
  destruct (decide (SocketSlack_AppToken slack = "")) as [Happ|Happ];
    destruct (decide (SocketSlack_BotToken slack = "")) as [Hbot|Hbot];
    destruct (HasPrefix (SocketSlack_BotToken slack) botTokenPrefix) eqn:Hb;
    destruct (HasPrefix (SocketSlack_AppToken slack) appTokenPrefix) eqn:Ha;
    simpl;
    try (by apply HasPrefix_nonempty in Hb);
    try (by apply HasPrefix_nonempty in Ha);
    (split;
     [ split; [try done; eauto | intros [?|[? ?]]; done]
     | intros e He;
       repeat (apply elem_of_cons in He as [->|He]; [simpl; by eauto|]);
       by apply elem_of_nil in He ]).
Qed.

Lemma missingBindings_nil (ns param : string) (defined : gset string)
    (bindings : list string) :
  missingBindings ns defined param bindings = []
  <-> forall name, name ∈ bindings -> name ∈ defined.
Proof.
  induction bindings as [|name rest IH].
  { split; [|done]. intros _ name Hin. by apply elem_of_nil in Hin. }
  rewrite ValidatorProps.missingBindings_cons.
  destruct (decide (name ∈ defined)) as [Hin|Hout]; simpl.
  - rewrite IH. split.
    + intros Hrest other [->|Hother]%elem_of_cons; [done|by apply Hrest].
    + intros Hall other Hother. apply Hall. by right.
  - split; [done|]. intros Hall. exfalso. apply Hout, Hall. by left.
Qed.

Lemma visit_BotBindings (conf : Config) (ns : string) (bindings : BotBindings) :
  visit AllNamespaceIndicator (TopConfig conf) [] (ns, VBotBindings bindings)
  = missingBindings ns (dom (Config_Sources conf)) "Config.Sources"
      (BotBindings_Sources bindings)
    ++ missingBindings ns (dom (Config_Executors conf)) "Config.Executors"
         (BotBindings_Executors bindings).
Proof.
  unfold visit, registeredValidation, botBindingsStructValidator. simpl.
  by rewrite ValidatorProps.validateExecutorBindings_reported,
    ValidatorProps.validateSourceBindings_reported.
Qed.

Lemma visit_ActionBindings (conf : Config) (ns : string)
    (bindings : ActionBindings) :
  visit AllNamespaceIndicator (TopConfig conf) [] (ns, VActionBindings bindings)
  = missingBindings ns (dom (Config_Sources conf)) "Config.Sources"
      (ActionBindings_Sources bindings)
    ++ missingBindings ns (dom (Config_Executors conf)) "Config.Executors"
         (ActionBindings_Executors bindings).
Proof.
  unfold visit, registeredValidation, actionBindingsStructValidator. simpl.
  by rewrite ValidatorProps.validateExecutorBindings_reported,
    ValidatorProps.validateSourceBindings_reported.
Qed.

Lemma visit_SinkBindings (conf : Config) (ns : string) (bindings : SinkBindings) :
  visit AllNamespaceIndicator (TopConfig conf) [] (ns, VSinkBindings bindings)
  = missingBindings ns (dom (Config_Sources conf)) "Config.Sources"
      (SinkBindings_Sources bindings).
Proof.
  unfold visit, registeredValidation, sinkBindingsStructValidator. simpl.
  by rewrite ValidatorProps.validateSourceBindings_reported.
Qed.

(** The bindings of a bot, of an action and of a sink pass exactly when
    every source they bind is a key of [Config.Sources] and, for a bot and
    an action, every executor they bind is a key of [Config.Executors]; a
    sink binds no executor. When the value under validation is not a
    [Config] the three validators report nothing, whatever is bound. *)
Theorem bindings_pass_iff (conf : Config) (ns : string) :
  (forall bindings,
     visit AllNamespaceIndicator (TopConfig conf) [] (ns, VBotBindings bindings)
     = []
     <-> (forall name, name ∈ BotBindings_Sources bindings ->
            is_Some (Config_Sources conf !! name))
         /\ (forall name, name ∈ BotBindings_Executors bindings ->
               is_Some (Config_Executors conf !! name)))
  /\ (forall bindings,
        visit AllNamespaceIndicator (TopConfig conf) []
          (ns, VActionBindings bindings) = []
        <-> (forall name, name ∈ ActionBindings_Sources bindings ->
               is_Some (Config_Sources conf !! name))
            /\ (forall name, name ∈ ActionBindings_Executors bindings ->
                  is_Some (Config_Executors conf !! name)))
  /\ (forall bindings,
        visit AllNamespaceIndicator (TopConfig conf) []
          (ns, VSinkBindings bindings) = []
        <-> forall name, name ∈ SinkBindings_Sources bindings ->
              is_Some (Config_Sources conf !! name))
  /\ (forall nested bot action sink,
        visit AllNamespaceIndicator (@TopOther Sources Executors nested) [] (ns, VBotBindings bot)
        = []
        /\ visit AllNamespaceIndicator (@TopOther Sources Executors nested) []
             (ns, VActionBindings action) = []
        /\ visit AllNamespaceIndicator (@TopOther Sources Executors nested) []
             (ns, VSinkBindings sink) = []).
Proof.
  split_and!.
  - intros bindings. rewrite visit_BotBindings, app_nil, !missingBindings_nil.
    by setoid_rewrite elem_of_dom.
  - intros bindings. rewrite visit_ActionBindings, app_nil, !missingBindings_nil.
    by setoid_rewrite elem_of_dom.
  - intros bindings. rewrite visit_SinkBindings, missingBindings_nil.
    by setoid_rewrite elem_of_dom.
  - done.
Qed.

Lemma no_message_iff (P : FieldError -> Prop) `{forall e, Decision (P e)}
    (errs : list FieldError) :
  Errorf defaultTranslation <$> filter P errs = []
  <-> forall e, e ∈ errs -> ~ P e.
Proof.
  split.
  - intros Hnil%fmap_nil_inv e He HP.
    exact (filter_nil_not_elem_of _ _ _ Hnil HP He).
  - intros Hall. induction errs as [|e rest IH]; [done|].
    rewrite filter_cons_False by (apply Hall; by left).
    apply IH. intros e' He'. apply Hall. by right.
Qed.

(** The result of [ValidateStruct] for the errors [validate.Struct] returned,
    whichever rules reported them. Both lists of the result are nil exactly
    when there is no error; as soon as there is one, both are not nil, also
    the one that holds no message. The criticals hold no message exactly
    when every error is an [ns-include-regex] one, the warnings hold none
    exactly when no error is. *)
Theorem validationResult_nil_iff (errs : list FieldError) :
  let result := validationResult defaultTranslation errs in
  (Criticals result = None <-> errs = [])
  /\ (Warnings result = None <-> errs = [])
  /\ (WrappedErrors (Criticals result) = []
      <-> forall e, e ∈ errs -> Tag e = nsIncludeTag)
  /\ (WrappedErrors (Warnings result) = []
      <-> forall e, e ∈ errs -> Tag e <> nsIncludeTag).
Proof.
  cbv zeta.
  assert (Hresult : validationResult defaultTranslation errs
    = match errs with
      | [] => {| Criticals := None; Warnings := None |}
      | _ :: _ =>
          {| Criticals :=
               Some (Errorf defaultTranslation
                     <$> filter (fun e => Tag e <> nsIncludeTag) errs);
             Warnings :=
               Some (Errorf defaultTranslation
                     <$> filter (fun e => Tag e = nsIncludeTag) errs) |}
      end).
  { unfold validationResult. destruct errs as [|e rest]; [done|].
    unfold New. by rewrite ValidatorProps.routeErrors_filter. }
  rewrite Hresult. split_and!.
  - by destruct errs.
  - by destruct errs.
  - destruct errs as [|e rest].
    { split; [|done]. intros _ e He. by apply elem_of_nil in He. }
    set (all := e :: rest). unfold WrappedErrors. simpl.
    rewrite (no_message_iff (fun e => Tag e <> nsIncludeTag)). split.
    + intros Hall e' He'. specialize (Hall e' He').
      by destruct (decide (Tag e' = nsIncludeTag)).
    + intros Hall e' He' Hne. by apply Hne, Hall.
  - destruct errs as [|e rest].
    { split; [|done]. intros _ e He. by apply elem_of_nil in He. }
    set (all := e :: rest). unfold WrappedErrors. simpl.
    by rewrite (no_message_iff (fun e => Tag e = nsIncludeTag)).
Qed.

Lemma elem_of_missingBindings (ns param name : string) (defined : gset string)
    (bindings : list string) :
  name ∈ bindings -> name ∉ defined ->
  missingBinding ns param name ∈ missingBindings ns defined param bindings.
Proof.
  intros Hin Hout. unfold missingBindings.
  apply (list_elem_of_fmap_2 (missingBinding ns param)).
  by apply list_elem_of_filter.
Qed.

(** What the operator reads. For the bindings of a bot reached under the
    path [ns], every bound source that is not a key of [Config.Sources] and
    every bound executor that is not a key of [Config.Executors] has its
    message among the criticals: the key made of the path and the whole
    name, then the name in quotes and the mapping it is missing from. The
    name in quotes is the name itself when it is shorter than 256 bytes;
    of a longer name only the last bytes are quoted, as many as its length
    modulo 256, the validator library keeping the length of a field name in
    a [uint8]. *)
Theorem undefined_binding_message (conf : Config) (ns : string)
    (bindings : BotBindings) :
  (ns, VBotBindings bindings) ∈ Config_Nested conf ->
  let criticals :=
    WrappedErrors
      (Criticals (ValidateStruct AllNamespaceIndicator defaultTranslation
                    (TopConfig conf))) in
  let message (name quoted mapping : string) :=
    "Key: '" +:+ (ns +:+ name) +:+ "' '" +:+ quoted
    +:+ "' binding not defined in " +:+ mapping in
  (forall name,
     name ∈ BotBindings_Sources bindings ->
     Config_Sources conf !! name = None ->
     message name (lastBytes (String.length name mod 256) name) "Config.Sources"
     ∈ criticals
     /\ (String.length name < 256 ->
         message name name "Config.Sources" ∈ criticals))
  /\ (forall name,
       name ∈ BotBindings_Executors bindings ->
       Config_Executors conf !! name = None ->
       message name (lastBytes (String.length name mod 256) name)
         "Config.Executors" ∈ criticals
       /\ (String.length name < 256 ->
           message name name "Config.Executors" ∈ criticals)).
Proof.
  intros Hnested. cbv zeta.
  destruct (ValidatorProps.ValidateStruct_routes AllNamespaceIndicator
              defaultTranslation (TopConfig conf)) as [-> _].
  assert (Hcritical : forall param name,
            missingBinding ns param name
            ∈ visit AllNamespaceIndicator (TopConfig conf) []
                (ns, VBotBindings bindings) ->
            ("Key: '" +:+ (ns +:+ name) +:+ "' '"
             +:+ lastBytes (String.length name mod 256) name
             +:+ "' binding not defined in " +:+ param)
            ∈ Errorf defaultTranslation
              <$> filter (fun e => Tag e <> nsIncludeTag)
                    (Struct AllNamespaceIndicator (TopConfig conf))).
  { intros param name He.
    rewrite <- ValidatorProps.reportedField_suffix with (ns := ns).
    apply (list_elem_of_fmap_2' (Errorf defaultTranslation)
             _ (missingBinding ns param name)); [|done].
    apply list_elem_of_filter. split.
    - simpl. unfold invalidBindingTag, nsIncludeTag. discriminate.
    - rewrite ValidatorProps.Struct_flat_map.
      apply list_elem_of_In, in_flat_map.
      exists (ns, VBotBindings bindings).
      split; by apply list_elem_of_In. }
  assert (Hshort : forall name, String.length name < 256 ->
            lastBytes (String.length name mod 256) name = name).
  { intros name Hlen. rewrite Nat.mod_small by done.
    apply ValidatorProps.lastBytes_all. }
  split; intros name Hbound Hmissing.
  - assert (Hin : ("Key: '" +:+ (ns +:+ name) +:+ "' '"
             +:+ lastBytes (String.length name mod 256) name
             +:+ "' binding not defined in " +:+ "Config.Sources")
            ∈ Errorf defaultTranslation
              <$> filter (fun e => Tag e <> nsIncludeTag)
                    (Struct AllNamespaceIndicator (TopConfig conf))).
    { apply Hcritical. rewrite visit_BotBindings. apply elem_of_app. left.
      apply elem_of_missingBindings; [done|]. by apply not_elem_of_dom. }
    split; [exact Hin|]. intros Hlen. by rewrite (Hshort name Hlen) in Hin.
  - assert (Hin : ("Key: '" +:+ (ns +:+ name) +:+ "' '"
             +:+ lastBytes (String.length name mod 256) name
             +:+ "' binding not defined in " +:+ "Config.Executors")
            ∈ Errorf defaultTranslation
              <$> filter (fun e => Tag e <> nsIncludeTag)
                    (Struct AllNamespaceIndicator (TopConfig conf))).
    { apply Hcritical. rewrite visit_BotBindings. apply elem_of_app. right.
      apply elem_of_missingBindings; [done|]. by apply not_elem_of_dom. }
    split; [exact Hin|]. intros Hlen. by rewrite (Hshort name Hlen) in Hin.
Qed.

End acceptance.

(** The witness: the channel "general" of a Socket Slack integration binds
    the source "k8s-events", which no one defined. *)
Lemma undefined_binding_message_witness :
  let bindings :=
    {| BotBindings_Sources := ["k8s-events"]; BotBindings_Executors := [] |} in
  let ns := "Config.Communications[default].SocketSlack.Channels[general].Bindings." in
  let conf : @Config unit unit :=
    {| Config_Sources := ∅; Config_Executors := ∅;
       Config_Nested := [(ns, VBotBindings bindings)] |} in
  (ns, VBotBindings bindings) ∈ Config_Nested conf
  /\ "Key: 'Config.Communications[default].SocketSlack.Channels[general].Bindings.k8s-events' 'k8s-events' binding not defined in Config.Sources"
     ∈ WrappedErrors
         (Criticals (ValidateStruct ".*" (fun _ => "") (TopConfig conf))).
Proof.
  cbv zeta.
  match goal with
  | |- ?v ∈ ?nested /\ _ =>
      assert (Hnested : v ∈ nested) by apply list_elem_of_here
  end.
  split; [exact Hnested|].
  refine (proj2 (proj1 (undefined_binding_message ".*" (fun _ => "") _ _ _ Hnested)
                   "k8s-events" (list_elem_of_here _ _) (lookup_empty _)) _).
  cbn. lia.
Defined.

End AcceptanceProps.
